(** * The threaded-message store of nomai-writing

    A shallow embedding of [backend/database.py] (the SQLite store), of
    the writing routes of [backend/app.py] and of the sample loader
    [backend/load_sample.py], followed by the properties of the store:
    cascading deletes, referential integrity, the layout cache, the
    ordering of the read operations, and what the routes and the loader
    make of them.

    Modelling boundary.  The SQL statements are given the meaning SQLite
    documents for them with [PRAGMA foreign_keys = ON]: declared column
    affinities, NOT NULL, AUTOINCREMENT, immediate foreign keys and
    ON DELETE CASCADE.  Python integers are taken to fit SQLite's 64-bit
    INTEGER, JSON numbers are integers, and resource limits of the engine
    are not represented. *)

From Stdlib Require Import ZArith String DecimalString.
From stdpp Require Import base decidable option list sorting strings relations gmap.

Local Open Scope string_scope.
Local Open Scope Z_scope.

(** ** Python values

    What [request.get_json()] hands to the routes, and what the routes
    hand to the store. A dictionary is kept as its items in insertion
    order; its keys are distinct. *)

#[warnings="-register-all"] Inductive pyval : Type :=
| PyNone
| PyBool (b : bool)
| PyInt (z : Z)
| PyStr (s : string)
| PyList (items : list pyval)
| PyDict (items : list (string * pyval)).

Inductive constraint : Type :=
| NotNull (column : string)
| ForeignKey.

Inductive exn : Type :=
| IntegrityError (c : constraint)
| BindingError
| TypeError
| KeyError
| AttributeError.

Inductive result (A : Type) : Type :=
| Returned (a : A)
| Raised (e : exn).
Arguments Returned {A} a.
Arguments Raised {A} e.

Definition is_raised {A} (r : result A) : bool :=
  match r with Raised _ => true | Returned _ => false end.

Module Py.

(** [bool(v)], as used by [not data]. *)
Definition truthy (v : pyval) : bool :=
  match v with
  | PyNone => false
  | PyBool b => b
  | PyInt z => negb (z =? 0)
  | PyStr s => negb (String.eqb s "")
  | PyList items => match items with [] => false | _ => true end
  | PyDict items => match items with [] => false | _ => true end
  end.

Fixpoint lookup_key (k : string) (items : list (string * pyval)) : option pyval :=
  match items with
  | [] => None
  | (k', v) :: rest => if String.eqb k k' then Some v else lookup_key k rest
  end.

Definition is_str (k : string) (v : pyval) : bool :=
  match v with PyStr s => String.eqb s k | _ => false end.

Definition is_substring (k s : string) : bool :=
  match String.index 0 k s with Some _ => true | None => false end.

(** [k in v] for a string [k]. *)
Definition contains (k : string) (v : pyval) : result bool :=
  match v with
  | PyDict items => Returned (match lookup_key k items with Some _ => true | None => false end)
  | PyList items => Returned (existsb (is_str k) items)
  | PyStr s => Returned (is_substring k s)
  | PyNone | PyBool _ | PyInt _ => Raised TypeError
  end.

(** [v[k]] for a string [k]. *)
Definition getitem (v : pyval) (k : string) : result pyval :=
  match v with
  | PyDict items =>
      match lookup_key k items with
      | Some x => Returned x
      | None => Raised KeyError
      end
  | _ => Raised TypeError
  end.

(** [v.get(k)]. *)
Definition get (v : pyval) (k : string) : result pyval :=
  match v with
  | PyDict items =>
      Returned (match lookup_key k items with Some x => x | None => PyNone end)
  | _ => Raised AttributeError
  end.

(** [v.items()]: the pairs of a dictionary; the keys of a dictionary that
    comes from JSON are strings. *)
Definition items (v : pyval) : result (list (pyval * pyval)) :=
  match v with
  | PyDict items => Returned ((λ kv, (PyStr kv.1, kv.2)) <$> items)
  | _ => Raised AttributeError
  end.

End Py.

(** ** SQL values and the tables *)

Inductive sqlval : Type :=
| Null
| Int (z : Z)
| Text (s : string).

(** How the [sqlite3] module binds a Python value to a [?]. *)
Definition bind_param (v : pyval) : result sqlval :=
  match v with
  | PyNone => Returned Null
  | PyBool b => Returned (Int (if b then 1 else 0))
  | PyInt z => Returned (Int z)
  | PyStr s => Returned (Text s)
  | PyList _ | PyDict _ => Raised BindingError
  end.

Record thread_row : Type := ThreadRow {
  t_id : Z;
  t_title : string;
  t_created_at : Z
}.

Record message_row : Type := MessageRow {
  m_id : Z;
  m_thread_id : Z;
  m_parent_id : option Z;
  m_writer_name : string;
  m_content : string;
  m_layout_data : option string;
  m_created_at : Z
}.

(** The database file: both tables in rowid order and the two counters
    that [sqlite_sequence] keeps for the AUTOINCREMENT keys.
    [created_at] holds the instant of CURRENT_TIMESTAMP; SQLite stores it
    as the fixed-width text YYYY-MM-DD HH:MM:SS, whose byte order is the
    order of the instants, so the model keeps the instant itself. *)
Record db : Type := Db {
  threads : list thread_row;
  messages : list message_row;
  seq_threads : Z;
  seq_messages : Z
}.

Global Instance thread_row_eq_dec : EqDecision thread_row.
Proof. solve_decision. Defined.
Global Instance message_row_eq_dec : EqDecision message_row.
Proof. solve_decision. Defined.

Definition empty_db : db := Db [] [] 0 0.

(** [init_db]: every statement of the script is IF NOT EXISTS and the
    ALTER TABLE that follows fails on the column the script has just
    declared, which is caught; the rows are left as they are. *)
Definition init_db (s : db) : db := s.

Definition thread_ids (s : db) : list Z := t_id <$> threads s.
Definition message_ids (s : db) : list Z := m_id <$> messages s.

(** ** A connection

    A block run under [with get_connection() as conn] is a function from
    the database to an exception or a value and the new database. *)

Definition txn (A : Type) : Type := db → result (A * db).

Definition tret {A} (a : A) : txn A := λ s, Returned (a, s).
Definition tbind {A B} (m : txn A) (k : A → txn B) : txn B :=
  λ s, match m s with
       | Returned (a, s') => k a s'
       | Raised e => Raised e
       end.
Definition tlift {A} (r : result A) : txn A :=
  λ s, match r with Returned a => Returned (a, s) | Raised e => Raised e end.

Notation "'let*' x := m 'in' k" := (tbind m (λ x, k))
  (at level 10, x name, m at level 100, k at level 200).
Notation "'run' m 'in' k" := (tbind m (λ _, k))
  (at level 10, m at level 100, k at level 200).

(** [get_connection]: the block runs, then [commit]; when the block
    raises, [commit] is skipped and [close] drops what was written. *)
Definition get_connection {A} (body : txn A) (s : db) : result A * db :=
  match body s with
  | Returned (a, s') => (Returned a, s')
  | Raised e => (Raised e, s)
  end.

(** ** Rows hit by a cascade *)

Definition refers_to (dead : list Z) (p : option Z) : Prop :=
  match p with Some k => k ∈ dead | None => False end.

Global Instance refers_to_dec dead p : Decision (refers_to dead p).
Proof. destruct p; simpl; apply _. Defined.

(** ON DELETE CASCADE on [parent_id]: the rows whose parent is among the
    rows just deleted are deleted in turn, and so on for as long as a
    round deletes something. Every such round shortens the table, so the
    length of the table bounds the number of rounds. *)
Fixpoint cascade (rounds : nat) (dead : list Z) (rows : list message_row)
  : list message_row :=
  match rounds with
  | O => rows
  | S k =>
      match filter (λ r, refers_to dead (m_parent_id r)) rows with
      | [] => rows
      | hit =>
          cascade k (m_id <$> hit)
            (filter (λ r, ¬ refers_to dead (m_parent_id r)) rows)
      end
  end.

(** Deleting the rows of [messages] that satisfy [P], with the cascade. *)
Definition delete_rows (P : message_row → Prop) `{∀ r, Decision (P r)}
    (rows : list message_row) : list message_row :=
  let rest := filter (λ r, ¬ P r) rows in
  cascade (length rest) (m_id <$> filter P rows) rest.

(** ** The store: [database.py] *)

Module database.
Section Store.

(** The engine's reading of a TEXT value where an integer is compared
    or stored (NUMERIC and INTEGER affinity): the integer a well-formed
    numeric literal stands for, and nothing for any other text. *)
Variable numeric_text : string → option Z.

(** The integer a bound value equals, if any. *)
Definition as_integer (v : sqlval) : option Z :=
  match v with
  | Null => None
  | Int z => Some z
  | Text s => numeric_text s
  end.

(** TEXT affinity: what a TEXT column stores for a bound value. *)
Definition as_text (v : sqlval) : option string :=
  match v with
  | Null => None
  | Int z => Some (NilZero.string_of_int (Z.to_int z))
  | Text s => Some s
  end.

(** *** Statements *)

(** INSERT INTO threads (title) VALUES (?) *)
Definition insert_thread (title : sqlval) (now : Z) : txn Z :=
  λ s,
    match as_text title with
    | None => Raised (IntegrityError (NotNull "threads.title"))
    | Some t =>
        let rowid := seq_threads s + 1 in
        Returned (rowid,
                  Db (threads s ++ [ThreadRow rowid t now]) (messages s)
                     rowid (seq_messages s))
    end.

(** The check of FOREIGN KEY (parent_id) REFERENCES messages(id) on an
    inserted row: NULL passes, and so does the key of a row of the
    table or of the inserted row itself. *)
Definition parent_key (rowid : Z) (parent_id : sqlval) (s : db)
  : result (option Z) :=
  match parent_id with
  | Null => Returned None
  | v =>
      match as_integer v with
      | Some p =>
          if decide (p ∈ message_ids s ∨ p = rowid) then Returned (Some p)
          else Raised (IntegrityError ForeignKey)
      | None => Raised (IntegrityError ForeignKey)
      end
  end.

(** The check of FOREIGN KEY (thread_id) REFERENCES threads(id). *)
Definition thread_key (thread_id : sqlval) (s : db) : result Z :=
  match as_integer thread_id with
  | Some t =>
      if decide (t ∈ thread_ids s) then Returned t
      else Raised (IntegrityError ForeignKey)
  | None => Raised (IntegrityError ForeignKey)
  end.

Definition not_null (column : string) (v : sqlval) : result string :=
  match as_text v with
  | Some t => Returned t
  | None => Raised (IntegrityError (NotNull column))
  end.

(** INSERT INTO messages (thread_id, parent_id, writer_name, content)
    VALUES (?, ?, ?, ?) *)
Definition insert_message (thread_id parent_id writer_name content : sqlval)
    (now : Z) : txn Z :=
  λ s,
    let rowid := seq_messages s + 1 in
    match thread_id with
    | Null => Raised (IntegrityError (NotNull "messages.thread_id"))
    | _ =>
        match not_null "messages.writer_name" writer_name with
        | Raised e => Raised e
        | Returned w =>
            match not_null "messages.content" content with
            | Raised e => Raised e
            | Returned c =>
                match thread_key thread_id s with
                | Raised e => Raised e
                | Returned t =>
                    match parent_key rowid parent_id s with
                    | Raised e => Raised e
                    | Returned p =>
                        Returned (rowid,
                          Db (threads s)
                             (messages s ++ [MessageRow rowid t p w c None now])
                             (seq_threads s) rowid)
                    end
                end
            end
        end
    end.

(** DELETE FROM threads WHERE id = ?, with the cascade to the messages
    of the deleted threads and from there along [parent_id]. *)
Definition delete_from_threads (thread_id : Z) : txn unit :=
  λ s,
    let gone := t_id <$> filter (λ t, t_id t = thread_id) (threads s) in
    Returned (tt,
      Db (filter (λ t, t_id t ≠ thread_id) (threads s))
         (delete_rows (λ r, m_thread_id r ∈ gone) (messages s))
         (seq_threads s) (seq_messages s)).

(** DELETE FROM messages WHERE id = ?, with the cascade along
    [parent_id]. *)
Definition delete_from_messages (message_id : Z) : txn unit :=
  λ s,
    Returned (tt,
      Db (threads s)
         (delete_rows (λ r, m_id r = message_id) (messages s))
         (seq_threads s) (seq_messages s)).

Definition set_layout (layout : option string) (r : message_row) : message_row :=
  MessageRow (m_id r) (m_thread_id r) (m_parent_id r) (m_writer_name r)
             (m_content r) layout (m_created_at r).

(** UPDATE messages SET layout_data = ? WHERE [P] *)
Definition update_layout_where (P : message_row → Prop) `{∀ r, Decision (P r)}
    (layout : option string) : txn unit :=
  λ s,
    Returned (tt,
      Db (threads s)
         ((λ r, if decide (P r) then set_layout layout r else r) <$> messages s)
         (seq_threads s) (seq_messages s)).

(** [conn.execute(sql, params)] binds the parameters before it runs
    the statement. *)
Definition bound (v : pyval) : txn sqlval := tlift (bind_param v).

(** *** The functions of [database.py] *)

Record thread_summary : Type := ThreadSummary {
  ts_id : Z;
  ts_title : string;
  ts_created_at : Z;
  ts_message_count : nat
}.

Record thread_view : Type := ThreadView {
  tv_id : Z;
  tv_title : string;
  tv_created_at : Z;
  tv_messages : list message_row
}.

Definition newer_first (a b : thread_summary) : Prop :=
  ts_created_at b ≤ ts_created_at a.
Definition older_first (a b : message_row) : Prop :=
  m_created_at a ≤ m_created_at b.

Global Instance newer_first_dec a b : Decision (newer_first a b).
Proof. unfold newer_first. apply _. Defined.
Global Instance older_first_dec a b : Decision (older_first a b).
Proof. unfold older_first. apply _. Defined.

Definition summary (s : db) (t : thread_row) : thread_summary :=
  ThreadSummary (t_id t) (t_title t) (t_created_at t)
    (length (filter (λ m, m_thread_id m = t_id t) (messages s))).

Definition get_all_threads (s : db) : result (list thread_summary) * db :=
  get_connection
    (λ s, Returned (merge_sort newer_first (summary s <$> threads s), s)) s.

Definition get_thread_with_messages (thread_id : Z) (s : db)
  : result (option thread_view) * db :=
  get_connection
    (λ s,
       match filter (λ t, t_id t = thread_id) (threads s) with
       | [] => Returned (None, s)
       | thread :: _ =>
           let rows := filter (λ m, m_thread_id m = thread_id) (messages s) in
           Returned (Some (ThreadView (t_id thread) (t_title thread)
                             (t_created_at thread)
                             (merge_sort older_first rows)), s)
       end) s.

Definition create_thread (title : pyval) (now : Z) (s : db) : result pyval * db :=
  get_connection
    (let* t := bound title in
     let* rowid := insert_thread t now in
     tret (PyDict [("id", PyInt rowid); ("title", title)])) s.

Definition delete_thread (thread_id : Z) (s : db) : result bool * db :=
  get_connection (run delete_from_threads thread_id in tret true) s.

Definition create_message (thread_id parent_id writer_name content : pyval)
    (now : Z) (s : db) : result pyval * db :=
  get_connection
    (let* t := bound thread_id in
     let* p := bound parent_id in
     let* w := bound writer_name in
     let* c := bound content in
     let* rowid := insert_message t p w c now in
     tret (PyDict [("id", PyInt rowid); ("thread_id", thread_id);
                   ("parent_id", parent_id); ("writer_name", writer_name);
                   ("content", content)])) s.

Definition delete_message (message_id : Z) (s : db) : result bool * db :=
  get_connection (run delete_from_messages message_id in tret true) s.

Definition names_row (key : sqlval) (r : message_row) : Prop :=
  as_integer key = Some (m_id r).

Global Instance names_row_dec key r : Decision (names_row key r).
Proof. unfold names_row. apply _. Defined.

Definition update_message_layout (message_id : Z) (layout_data : pyval) (s : db)
  : result bool * db :=
  get_connection
    (let* l := bound layout_data in
     run update_layout_where (λ r, m_id r = message_id) (as_text l) in
     tret true) s.

(** The loop over [layouts.items()]. *)
Fixpoint update_each (thread_id : Z) (layouts : list (pyval * pyval)) : txn unit :=
  match layouts with
  | [] => tret tt
  | (message_id, layout_data) :: rest =>
      let* l := bound layout_data in
      let* k := bound message_id in
      run update_layout_where
            (λ r, names_row k r ∧ m_thread_id r = thread_id) (as_text l) in
      update_each thread_id rest
  end.

Definition update_thread_layouts (thread_id : Z) (layouts : list (pyval * pyval))
    (s : db) : result bool * db :=
  get_connection (run update_each thread_id layouts in tret true) s.

Definition clear_thread_layouts (thread_id : Z) (s : db) : result bool * db :=
  get_connection
    (run update_layout_where (λ r, m_thread_id r = thread_id) None in
     tret true) s.

End Store.
End database.

(** ** The validating routes: [app.py] *)

(** A route answers with a status and a JSON body; an exception that
    leaves the route is the framework's internal server error. *)
Inductive response : Type :=
| Response (status : nat) (body : pyval).

Definition status_of (r : result response) : option nat :=
  match r with
  | Returned (Response status _) => Some status
  | Raised _ => None
  end.

Module app.
Section Routes.

Variable numeric_text : string → option Z.

Definition error (message : string) : response :=
  Response 400 (PyDict [("error", PyStr message)]).

(** POST /api/threads *)
Definition create_thread (data : pyval) (now : Z) (s : db)
  : result response * db :=
  if negb (Py.truthy data) then (Returned (error "Title is required"), s)
  else
    match Py.contains "title" data with
    | Raised e => (Raised e, s)
    | Returned false => (Returned (error "Title is required"), s)
    | Returned true =>
        match Py.getitem data "title" with
        | Raised e => (Raised e, s)
        | Returned title =>
            match database.create_thread title now s with
            | (Returned thread, s') => (Returned (Response 201 thread), s')
            | (Raised e, s') => (Raised e, s')
            end
        end
    end.

Definition required : list string := ["thread_id"; "writer_name"; "content"].

(** The loop over [required]: the first field that is not in [data]. *)
Fixpoint first_missing (fields : list string) (data : pyval)
  : result (option string) :=
  match fields with
  | [] => Returned None
  | field :: rest =>
      match Py.contains field data with
      | Raised e => Raised e
      | Returned false => Returned (Some field)
      | Returned true => first_missing rest data
      end
  end.

(** POST /api/messages *)
Definition create_message (data : pyval) (now : Z) (s : db)
  : result response * db :=
  if negb (Py.truthy data) then (Returned (error "Request body is required"), s)
  else
    match first_missing required data with
    | Raised e => (Raised e, s)
    | Returned (Some field) => (Returned (error (field ++ " is required")), s)
    | Returned None =>
        match Py.getitem data "thread_id" with
        | Raised e => (Raised e, s)
        | Returned thread_id =>
        match Py.get data "parent_id" with
        | Raised e => (Raised e, s)
        | Returned parent_id =>
        match Py.getitem data "writer_name" with
        | Raised e => (Raised e, s)
        | Returned writer_name =>
        match Py.getitem data "content" with
        | Raised e => (Raised e, s)
        | Returned content =>
            match database.create_message numeric_text
                    thread_id parent_id writer_name content now s with
            | (Returned message, s') => (Returned (Response 201 message), s')
            | (Raised e, s') => (Raised e, s')
            end
        end end end end
    end.

Definition success : response :=
  Response 200 (PyDict [("success", PyBool true)]).

(** DELETE /api/threads/<int:thread_id> *)
Definition delete_thread (thread_id : Z) (s : db) : result response * db :=
  match database.delete_thread thread_id s with
  | (Returned _, s') => (Returned success, s')
  | (Raised e, s') => (Raised e, s')
  end.

(** DELETE /api/messages/<int:message_id> *)
Definition delete_message (message_id : Z) (s : db) : result response * db :=
  match database.delete_message message_id s with
  | (Returned _, s') => (Returned success, s')
  | (Raised e, s') => (Raised e, s')
  end.

(** PUT /api/threads/<int:thread_id>/layouts. The store function calls
    [layouts.items()] once its connection is open and before its first
    statement. *)
Definition update_layouts (thread_id : Z) (data : pyval) (s : db)
  : result response * db :=
  if negb (Py.truthy data)
  then (Returned (error "layouts object is required"), s)
  else
    match Py.contains "layouts" data with
    | Raised e => (Raised e, s)
    | Returned false => (Returned (error "layouts object is required"), s)
    | Returned true =>
        match Py.getitem data "layouts" with
        | Raised e => (Raised e, s)
        | Returned layouts =>
            match Py.items layouts with
            | Raised e => (Raised e, s)
            | Returned entries =>
                match database.update_thread_layouts numeric_text
                        thread_id entries s with
                | (Returned _, s') => (Returned success, s')
                | (Raised e, s') => (Raised e, s')
                end
            end
        end
    end.

(** DELETE /api/threads/<int:thread_id>/layouts *)
Definition clear_layouts (thread_id : Z) (s : db) : result response * db :=
  match database.clear_thread_layouts thread_id s with
  | (Returned _, s') => (Returned success, s')
  | (Raised e, s') => (Raised e, s')
  end.

End Routes.
End app.

(** ** The sample loader: [load_sample.py]

    The sample file is taken with the shape the loader reads: a title,
    and messages with an integer [id], an integer or null [parent_id],
    a [writer_name] and a [content]. Each call of the store reads the
    clock once; [clock k] is the instant of the [k]-th call. What the
    loader prints is left out. *)

Module load_sample.
Section Loader.

Variable numeric_text : string → option Z.

Record sample_message : Type := SampleMessage {
  sm_id : Z;
  sm_parent_id : option Z;
  sm_writer_name : pyval;
  sm_content : pyval
}.

Record sample : Type := Sample {
  sample_title : pyval;
  sample_messages : list sample_message
}.

(** [sorted(data['messages'], key=lambda m: m['id'])]; [sorted] keeps
    messages with equal ids in the order of the file. *)
Fixpoint insert_by_id (m : sample_message) (l : list sample_message)
  : list sample_message :=
  match l with
  | [] => [m]
  | x :: rest =>
      if decide (sm_id m ≤ sm_id x) then m :: x :: rest
      else x :: insert_by_id m rest
  end.

Definition sorted_by_id (l : list sample_message) : list sample_message :=
  foldr insert_by_id [] l.

(** The loop over the sorted messages, with [id_map]. *)
Fixpoint load_messages (thread_id : pyval) (id_map : gmap Z pyval)
    (messages : list sample_message) (clock : nat → Z) (tick : nat) (s : db)
  : result unit * db :=
  match messages with
  | [] => (Returned tt, s)
  | msg :: rest =>
      let parent_id :=
        match sm_parent_id msg with
        | None => PyNone
        | Some p => default PyNone (id_map !! p)
        end in
      match database.create_message numeric_text thread_id parent_id
              (sm_writer_name msg) (sm_content msg) (clock tick) s with
      | (Raised e, s') => (Raised e, s')
      | (Returned new_msg, s') =>
          match Py.getitem new_msg "id" with
          | Raised e => (Raised e, s')
          | Returned new_id =>
              load_messages thread_id (<[sm_id msg := new_id]> id_map)
                rest clock (S tick) s'
          end
      end
  end.

Definition load_sample_data (data : sample) (clock : nat → Z) (s : db)
  : result unit * db :=
  match database.create_thread (sample_title data) (clock O) (init_db s) with
  | (Raised e, s1) => (Raised e, s1)
  | (Returned thread, s1) =>
      match Py.getitem thread "id" with
      | Raised e => (Raised e, s1)
      | Returned thread_id =>
          load_messages thread_id ∅ (sorted_by_id (sample_messages data))
            clock 1%nat s1
      end
  end.

End Loader.
End load_sample.

(** * The vocabulary of the properties *)

Import database.

(** ** What the schema guarantees *)

(** The constraints of the schema: the primary keys, the counters of the
    AUTOINCREMENT keys, and the two foreign keys. *)
Record consistent (s : db) : Prop := Consistent {
  threads_pk : NoDup (thread_ids s);
  messages_pk : NoDup (message_ids s);
  threads_seq : ∀ t, t ∈ thread_ids s → t ≤ seq_threads s;
  messages_seq : ∀ m, m ∈ message_ids s → m ≤ seq_messages s;
  thread_fk : ∀ r, r ∈ messages s → m_thread_id r ∈ thread_ids s;
  parent_fk : ∀ r p, r ∈ messages s → m_parent_id r = Some p → p ∈ message_ids s
}.

Section Reachable.

Variable numeric_text : string → option Z.

(** One call of a writing function of the store. *)
Inductive step (s : db) : db → Prop :=
| step_create_thread title now :
    step s (snd (create_thread title now s))
| step_delete_thread thread_id :
    step s (snd (delete_thread thread_id s))
| step_create_message thread_id parent_id writer_name content now :
    step s (snd (create_message numeric_text
                   thread_id parent_id writer_name content now s))
| step_delete_message message_id :
    step s (snd (delete_message message_id s))
| step_update_message_layout message_id layout_data :
    step s (snd (update_message_layout message_id layout_data s))
| step_update_thread_layouts thread_id layouts :
    step s (snd (update_thread_layouts numeric_text thread_id layouts s))
| step_clear_thread_layouts thread_id :
    step s (snd (clear_thread_layouts thread_id s)).

(** The states of the store, from the database that [init_db] creates. *)
Inductive reachable : db → Prop :=
| reachable_init : reachable (init_db empty_db)
| reachable_step s s' : reachable s → step s s' → reachable s'.

End Reachable.

(** ** Layouts *)

(** The rows with [layout_data] replaced row by row. *)
Definition relayout (f : message_row → option string) (s : db) : db :=
  Db (threads s) ((λ r, set_layout (f r) r) <$> messages s)
     (seq_threads s) (seq_messages s).

(** Two rows that differ in [layout_data] at most. *)
Definition same_but_layout (r r' : message_row) : Prop :=
  m_id r' = m_id r ∧ m_thread_id r' = m_thread_id r ∧
  m_parent_id r' = m_parent_id r ∧ m_writer_name r' = m_writer_name r ∧
  m_content r' = m_content r ∧ m_created_at r' = m_created_at r.

(** The rows of one thread. *)
Definition in_thread (thread_id : Z) (s : db) : list message_row :=
  filter (λ r, m_thread_id r = thread_id) (messages s).

(** ** Trees of messages *)

(** A message and the messages below it: the rows that name the message
    and, transitively, the rows whose [parent_id] names such a row. *)
Inductive descends (rows : list message_row) (m : Z) : message_row → Prop :=
| descends_root r :
    r ∈ rows → m_id r = m → descends rows m r
| descends_child r above :
    descends rows m above → r ∈ rows → m_parent_id r = Some (m_id above) →
    descends rows m r.


(** Every parent is a stored message. *)
Definition parents_stored (s : db) : Prop :=
  ∀ r p, r ∈ messages s → m_parent_id r = Some p →
         ∃ above, above ∈ messages s ∧ m_id above = p.

(** Every parent is a stored message of the thread of its child. *)
Definition same_thread_parents (s : db) : Prop :=
  ∀ r p, r ∈ messages s → m_parent_id r = Some p →
         ∃ above, above ∈ messages s ∧ m_id above = p ∧
                  m_thread_id above = m_thread_id r.

(** ** Requests *)

(** A request body that is absent or empty, or an object with no entry
    for [field]. *)
Definition lacks (field : string) (data : pyval) : Prop :=
  Py.truthy data = false ∨
  ∃ items, data = PyDict items ∧ Py.lookup_key field items = None.

(** The driver can bind the value to a parameter of a statement. *)
Definition binds (v : pyval) : Prop := is_raised (bind_param v) = false.

(** The argument [thread_id] of [create_message] is bound to a value
    that equals the key of a stored thread. *)
Definition references_thread (numeric_text : string → option Z)
    (thread_id : pyval) (s : db) : Prop :=
  ∃ tv t, bind_param thread_id = Returned tv ∧
          as_integer numeric_text tv = Some t ∧ t ∈ thread_ids s.

(** ** A small database

    Two threads; in the first a chain of four messages, each the parent
    of the next; in the second a single message. The calls bind integers
    and strings that are no numbers, so nothing in them hangs on the
    reading of numeric text; [no_numeric_text] reads none. *)

Definition no_numeric_text : string → option Z := λ _, None.

Definition demo_1 : db := snd (create_thread (PyStr "Demo") 100 (init_db empty_db)).
Definition demo_2 : db := snd (create_thread (PyStr "Other") 101 demo_1).
Definition demo_3 : db :=
  snd (create_message no_numeric_text
         (PyInt 1) PyNone (PyStr "A") (PyStr "hi") 102 demo_2).
Definition demo_4 : db :=
  snd (create_message no_numeric_text
         (PyInt 1) (PyInt 1) (PyStr "B") (PyStr "reply") 103 demo_3).
Definition demo_5 : db :=
  snd (create_message no_numeric_text
         (PyInt 1) (PyInt 2) (PyStr "A") (PyStr "again") 104 demo_4).
Definition demo_6 : db :=
  snd (create_message no_numeric_text
         (PyInt 1) (PyInt 3) (PyStr "B") (PyStr "and again") 105 demo_5).
Definition demo_db : db :=
  snd (create_message no_numeric_text
         (PyInt 2) PyNone (PyStr "C") (PyStr "elsewhere") 106 demo_6).

Definition demo_leaf : message_row :=
  MessageRow 4 1 (Some 3) "B" "and again" None 105.

(** A sixth message, for the second thread, whose parent is the first
    message of the first thread. *)
Definition cross_thread_call : result pyval * db :=
  create_message no_numeric_text
    (PyInt 2) (PyInt 1) (PyStr "C") (PyStr "across") 107 demo_db.

Definition cross_thread_row : message_row :=
  MessageRow 6 2 (Some 1) "C" "across" None 107.

(** ** What a cascade takes *)


(** ** Keys *)

(** Every key is at least 1. *)
Definition keys_positive (s : db) : Prop :=
  (∀ t, t ∈ thread_ids s → 1 ≤ t) ∧ (∀ m, m ∈ message_ids s → 1 ≤ m).

(** No message has a parent with a greater id than its own. *)
Definition parents_older (s : db) : Prop :=
  ∀ r p, r ∈ messages s → m_parent_id r = Some p → p ≤ m_id r.

(** The argument [parent_id] for an optional parent. *)
Definition parent_arg (parent : option Z) : pyval :=
  match parent with Some p => PyInt p | None => PyNone end.

(** ** The sample loader *)

Import load_sample.

(** The text a NOT NULL TEXT column stores for an argument, when the
    argument can be bound and is not null. *)
Definition stored_text (v : pyval) : option string :=
  match bind_param v with
  | Returned x => as_text x
  | Raised _ => None
  end.

(** A message of the sample whose two texts can be stored. *)
Definition storable (msg : sample_message) : Prop :=
  is_Some (stored_text (sm_writer_name msg)) ∧
  is_Some (stored_text (sm_content msg)).

(** The order of the ids, in which the loader takes the messages. *)
Definition by_id (a b : sample_message) : Prop := sm_id a ≤ sm_id b.

(** [id_map], as integers, once the loop has passed the messages [msgs]
    and has given them the keys from [next] on. *)
Fixpoint seen_after (seen : gmap Z Z) (msgs : list sample_message) (next : Z)
  : gmap Z Z :=
  match msgs with
  | [] => seen
  | msg :: rest => seen_after (<[sm_id msg := next]> seen) rest (next + 1)
  end.

(** The rows the loop inserts for the messages [msgs]. *)
Fixpoint loaded_rows (thread : Z) (seen : gmap Z Z) (msgs : list sample_message)
    (clock : nat → Z) (tick : nat) (next : Z) : list message_row :=
  match msgs with
  | [] => []
  | msg :: rest =>
      MessageRow next thread (sm_parent_id msg ≫= λ p, seen !! p)
        (default "" (stored_text (sm_writer_name msg)))
        (default "" (stored_text (sm_content msg)))
        None (clock tick)
      :: loaded_rows thread (<[sm_id msg := next]> seen) rest
           clock (S tick) (next + 1)
  end.

(** The parent the loader gives to a message of the sample: the row
    loaded for the message that its [parent_id] names, when that message
    is in the sample with a smaller id, and none otherwise. *)
Definition loaded_parent (ids : list Z) (image : Z → Z) (msg : sample_message)
  : option Z :=
  match sm_parent_id msg with
  | Some p => if decide (p ∈ ids ∧ p < sm_id msg) then Some (image p) else None
  | None => None
  end.

(** A sample of three messages given out of order: a reply, its parent,
    and a message whose parent is not in the file. *)
Definition demo_sample : sample :=
  Sample (PyStr "Sample")
    [SampleMessage 20 (Some 10) (PyStr "B") (PyStr "reply");
     SampleMessage 10 None (PyStr "A") (PyStr "hi");
     SampleMessage 30 (Some 99) (PyStr "C") (PyStr "lost")].

Definition demo_clock : nat → Z := λ k, 200 + Z.of_nat k.

(** A reading of numeric text that knows the one text the demonstration
    of the layout route needs. *)
Definition reads_four : string → option Z :=
  λ text, if String.eqb text "4" then Some 4 else None.
(** * Properties of the store *)

(** ** Filters *)

Section Filters.
Context {A : Type} (P : A → Prop) `{!∀ x, Decision (P x)}.


Lemma filter_drops_all (l : list A) :
  (∀ x, x ∈ l → ¬ P x) → filter P l = [].
Proof.
  induction l as [|a l IH]; intros HP; [done|].
  rewrite filter_cons_False by (apply HP; left).
  apply IH. intros x Hx. apply HP. by right.
Qed.

End Filters.

(** Rows of a table are told apart by a column that has no duplicates. *)
Lemma unique_key {A K} (key : A → K) (l : list A) x y :
  NoDup (key <$> l) → x ∈ l → y ∈ l → key x = key y → x = y.
Proof.
  induction l as [|a l IH]; intros Hnd Hx Hy Hk.
  { by apply not_elem_of_nil in Hx. }
  rewrite fmap_cons in Hnd. apply NoDup_cons in Hnd as [Ha Hnd].
  apply elem_of_cons in Hx as [->|Hx]; apply elem_of_cons in Hy as [->|Hy].
  - done.
  - exfalso. apply Ha. rewrite Hk. by apply list_elem_of_fmap_2.
  - exfalso. apply Ha. rewrite <- Hk. by apply list_elem_of_fmap_2.
  - by apply IH.
Qed.

(** ** The cascade *)

Section Cascade.
Implicit Types (rows : list message_row) (dead : list Z) (r : message_row).

Lemma cascade_S n dead rows :
  cascade (S n) dead rows =
    match filter (λ r, refers_to dead (m_parent_id r)) rows with
    | [] => rows
    | hit =>
        cascade n (m_id <$> hit)
          (filter (λ r, ¬ refers_to dead (m_parent_id r)) rows)
    end.
Proof. done. Qed.


Lemma cascade_sublist n dead rows : cascade n dead rows `sublist_of` rows.
Proof.
  revert dead rows. induction n as [|n IH]; intros dead rows; simpl; [done|].
  destruct (filter _ rows) eqn:E; [done|].
  etrans; [apply IH | apply sublist_filter].
Qed.

(** With as many rounds as the table has rows the cascade runs to its
    end: a row that is left has no parent among the keys it was started
    from, and every row that carries the key of its parent is left as
    well. *)
Lemma cascade_closed n dead rows r p :
  (length rows ≤ n)%nat →
  r ∈ cascade n dead rows →
  m_parent_id r = Some p →
  (p ∉ dead) ∧ (∀ r', r' ∈ rows → m_id r' = p → r' ∈ cascade n dead rows).
Proof.
  revert dead rows. induction n as [|n IH]; intros dead rows Hlen Hr Hp.
  { destruct rows; simpl in *; [by apply not_elem_of_nil in Hr | lia]. }
  rewrite cascade_S in *.
  destruct (filter (λ r0, refers_to dead (m_parent_id r0)) rows)
    as [|h hit] eqn:E.
  - split; [|done].
    intros Hdead. eapply (filter_nil_not_elem_of _ _ r E); [|done].
    unfold refers_to. by rewrite Hp.
  - assert (Hh : h ∈ filter (λ r0, refers_to dead (m_parent_id r0)) rows)
      by (rewrite E; left).
    apply list_elem_of_filter in Hh as [Hh1 Hh2].
    assert (Hshort :
      (length (filter (λ r0, ¬ refers_to dead (m_parent_id r0)) rows) ≤ n)%nat).
    { pose proof (length_filter_lt
        (λ r0, ¬ refers_to dead (m_parent_id r0)) rows h Hh2) as Hlt.
      assert (length (filter (λ r0, ¬ refers_to dead (m_parent_id r0)) rows)
              < length rows)%nat by (apply Hlt; tauto).
      lia. }
    destruct (IH _ _ Hshort Hr Hp) as [Hfresh Hkept].
    split.
    + pose proof (elem_of_sublist _ _ _ Hr (cascade_sublist _ _ _)) as Hin.
      apply list_elem_of_filter in Hin as [Hno _].
      unfold refers_to in Hno. by rewrite Hp in Hno.
    + intros r' Hr' Hid.
      destruct (decide (refers_to dead (m_parent_id r'))) as [Hyes|Hno].
      * exfalso. apply Hfresh. rewrite <- Hid, <- E.
        apply list_elem_of_fmap_2. apply list_elem_of_filter. done.
      * apply Hkept; [|done]. apply list_elem_of_filter. done.
Qed.

Context (P : message_row → Prop) `{!∀ r, Decision (P r)}.

Lemma delete_rows_sublist rows : delete_rows P rows `sublist_of` rows.
Proof.
  unfold delete_rows. etrans; [apply cascade_sublist | apply sublist_filter].
Qed.

Lemma delete_rows_elem_of rows r :
  r ∈ delete_rows P rows → r ∈ rows ∧ ¬ P r.
Proof.
  intros Hr. unfold delete_rows in Hr.
  pose proof (elem_of_sublist _ _ _ Hr (cascade_sublist _ _ _)) as Hin.
  apply list_elem_of_filter in Hin. tauto.
Qed.

Lemma delete_rows_closed rows r p r' :
  r ∈ delete_rows P rows →
  m_parent_id r = Some p →
  r' ∈ rows → m_id r' = p →
  r' ∈ delete_rows P rows.
Proof.
  intros Hr Hp Hr' Hid. unfold delete_rows in *.
  destruct (cascade_closed _ _ _ _ _ (le_n _) Hr Hp) as [Hfresh Hkept].
  apply Hkept; [|done].
  apply list_elem_of_filter. split; [|done].
  intros HP. apply Hfresh. rewrite <- Hid.
  apply list_elem_of_fmap_2. apply list_elem_of_filter. done.
Qed.


End Cascade.

Lemma consistent_empty : consistent empty_db.
Proof.
  split; simpl; try constructor; intros *; try (intros H; by apply not_elem_of_nil in H).
Qed.

Lemma fresh_key (ids : list Z) (seq : Z) :
  NoDup ids → (∀ k, k ∈ ids → k ≤ seq) → NoDup (ids ++ [seq + 1]).
Proof.
  intros Hnd Hle. apply NoDup_app. split; [done|]. split.
  - intros k Hk Hin. apply list_elem_of_singleton in Hin.
    specialize (Hle k Hk). lia.
  - apply NoDup_singleton.
Qed.

Lemma consistent_create_thread title now s :
  consistent s → consistent (snd (create_thread title now s)).
Proof.
  intros [Htp Hmp Hts Hms Htf Hpf].
  unfold create_thread, get_connection, tbind, bound, tlift.
  destruct (bind_param title) as [t|e]; simpl; [|by split].
  unfold insert_thread. destruct (as_text t) as [txt|]; simpl; [|by split].
  split; simpl; try done.
  - unfold thread_ids. simpl. rewrite fmap_app. simpl. by apply fresh_key.
  - unfold thread_ids. simpl. rewrite fmap_app. simpl.
    intros k Hk. apply elem_of_app in Hk as [Hk|Hk].
    + specialize (Hts k Hk). lia.
    + apply list_elem_of_singleton in Hk. lia.
  - intros r Hr. unfold thread_ids. simpl. rewrite fmap_app.
    apply elem_of_app. left. by apply Htf.
Qed.

Lemma parent_key_Returned nt rowid pv s p :
  parent_key nt rowid pv s = Returned p →
  ∀ k, p = Some k → k ∈ message_ids s ∨ k = rowid.
Proof.
  unfold parent_key. intros H k ->.
  destruct pv as [|z|txt]; simpl in H; [done| |destruct (nt txt) as [z|]; [|done]];
    (destruct (decide (z ∈ message_ids s ∨ z = rowid)) as [Hz|]; [|done]);
    by injection H as ->.
Qed.

Lemma thread_key_Returned nt tv s t :
  thread_key nt tv s = Returned t →
  as_integer nt tv = Some t ∧ t ∈ thread_ids s.
Proof.
  unfold thread_key. intros H.
  destruct (as_integer nt tv) as [t'|]; [|done].
  destruct (decide (t' ∈ thread_ids s)); [|done].
  by injection H as ->.
Qed.

(** What a successful INSERT INTO messages has checked and written. *)
Lemma insert_message_Returned nt tv pv wv cv now s rowid s' :
  insert_message nt tv pv wv cv now s = Returned (rowid, s') →
  ∃ t p w c,
    as_integer nt tv = Some t ∧ t ∈ thread_ids s ∧
    (∀ k, p = Some k → k ∈ message_ids s ∨ k = rowid) ∧
    as_text wv = Some w ∧ as_text cv = Some c ∧
    rowid = seq_messages s + 1 ∧
    s' = Db (threads s) (messages s ++ [MessageRow rowid t p w c None now])
            (seq_threads s) rowid.
Proof.
  unfold insert_message, not_null. intros H.
  destruct (as_text wv) as [w|] eqn:Ew; [|by destruct tv].
  destruct (as_text cv) as [c|] eqn:Ec; [|by destruct tv].
  destruct (thread_key nt tv s) as [t|] eqn:Et; [|by destruct tv].
  destruct (parent_key nt (seq_messages s + 1) pv s) as [p|] eqn:Ep;
    [|by destruct tv].
  apply thread_key_Returned in Et as [Et Ht].
  pose proof (parent_key_Returned _ _ _ _ _ Ep) as Hp.
  exists t, p, w, c.
  destruct tv; [done| |]; by injection H as <- <-.
Qed.

Lemma consistent_insert_message nt tv pv wv cv now s rowid s' :
  insert_message nt tv pv wv cv now s = Returned (rowid, s') →
  consistent s → consistent s'.
Proof.
  intros H [Htp Hmp Hts Hms Htf Hpf].
  apply insert_message_Returned in H
    as (t & p & w & c & _ & Ht & Hp & _ & _ & -> & ->).
  split; simpl; try done.
  - unfold message_ids. simpl. rewrite fmap_app. simpl. by apply fresh_key.
  - unfold message_ids. simpl. rewrite fmap_app. simpl.
    intros k Hk. apply elem_of_app in Hk as [Hk|Hk].
    + specialize (Hms k Hk). lia.
    + apply list_elem_of_singleton in Hk. lia.
  - intros r Hr. apply elem_of_app in Hr as [Hr|Hr]; [by apply Htf|].
    apply list_elem_of_singleton in Hr. by subst r.
  - intros r k Hr Hk. unfold message_ids. simpl. rewrite fmap_app. simpl.
    apply elem_of_app. apply elem_of_app in Hr as [Hr|Hr].
    + left. by eapply Hpf.
    + apply list_elem_of_singleton in Hr. subst r. simpl in Hk.
      destruct (Hp k Hk) as [Hin| ->]; [by left|].
      right. by apply list_elem_of_singleton.
Qed.

(** A call of [create_message] either leaves the database as it was or
    commits what its INSERT wrote. *)
Lemma create_message_cases nt thread_id parent_id writer_name content now s :
  (is_raised (fst (create_message nt thread_id parent_id writer_name content now s)) = true ∧
   snd (create_message nt thread_id parent_id writer_name content now s) = s) ∨
  (∃ tv pv wv cv rowid,
     bind_param thread_id = Returned tv ∧ bind_param parent_id = Returned pv ∧
     bind_param writer_name = Returned wv ∧ bind_param content = Returned cv ∧
     is_raised (fst (create_message nt thread_id parent_id writer_name content now s)) = false ∧
     insert_message nt tv pv wv cv now s =
       Returned (rowid,
                 snd (create_message nt thread_id parent_id writer_name content now s))).
Proof.
  unfold create_message, get_connection, tbind, bound, tlift, tret.
  destruct (bind_param thread_id) as [tv|]; [|by left].
  destruct (bind_param parent_id) as [pv|]; [|by left].
  destruct (bind_param writer_name) as [wv|]; [|by left].
  destruct (bind_param content) as [cv|]; [|by left].
  destruct (insert_message nt tv pv wv cv now s) as [[rowid s']|e] eqn:E; [|by left].
  right. exists tv, pv, wv, cv, rowid. done.
Qed.

Lemma consistent_create_message nt thread_id parent_id writer_name content now s :
  consistent s →
  consistent (snd (create_message nt thread_id parent_id writer_name content now s)).
Proof.
  intros Hs.
  destruct (create_message_cases nt thread_id parent_id writer_name content now s)
    as [[_ ->]|(tv & pv & wv & cv & rowid & _ & _ & _ & _ & _ & H)]; [done|].
  by eapply consistent_insert_message.
Qed.

(** Deleting rows of both tables. The rows of [messages] that stay must
    still find their thread among the rows of [threads] that stay. *)
Lemma consistent_delete (P : message_row → Prop) `{!∀ r, Decision (P r)}
    (kept : list thread_row) s :
  kept `sublist_of` threads s →
  (∀ r, r ∈ messages s → ¬ P r → m_thread_id r ∈ t_id <$> kept) →
  consistent s →
  consistent (Db kept (delete_rows P (messages s)) (seq_threads s) (seq_messages s)).
Proof.
  intros Hsub Hthr [Htp Hmp Hts Hms Htf Hpf].
  assert (Hids : (m_id <$> delete_rows P (messages s)) `sublist_of` message_ids s).
  { unfold message_ids. apply fmap_sublist, delete_rows_sublist. }
  assert (Htids : (t_id <$> kept) `sublist_of` thread_ids s).
  { unfold thread_ids. by apply fmap_sublist. }
  split; simpl; unfold thread_ids, message_ids; simpl.
  - eapply sublist_NoDup; [exact Htp | exact Htids].
  - eapply sublist_NoDup; [exact Hmp | exact Hids].
  - intros t Ht. apply Hts. eapply elem_of_sublist; [exact Ht | exact Htids].
  - intros m Hm. apply Hms. eapply elem_of_sublist; [exact Hm | exact Hids].
  - intros r Hr. apply delete_rows_elem_of in Hr as [Hr HP]. by apply Hthr.
  - intros r p Hr Hp.
    pose proof Hr as Hr0. apply delete_rows_elem_of in Hr0 as [Hr0 _].
    specialize (Hpf r p Hr0 Hp). unfold message_ids in Hpf.
    apply list_elem_of_fmap in Hpf as (r' & -> & Hr').
    apply list_elem_of_fmap_2. by eapply delete_rows_closed.
Qed.

Lemma consistent_delete_thread thread_id s :
  consistent s → consistent (snd (delete_thread thread_id s)).
Proof.
  intros Hs. unfold delete_thread, get_connection, tbind, delete_from_threads, tret.
  simpl. apply consistent_delete; [apply sublist_filter| |done].
  intros r Hr Hkeep.
  pose proof (thread_fk s Hs r Hr) as Hfk. unfold thread_ids in Hfk.
  apply list_elem_of_fmap in Hfk as (t & Ht & Hin).
  rewrite Ht. apply list_elem_of_fmap_2. apply list_elem_of_filter.
  split; [|done]. intros Heq. apply Hkeep. rewrite Ht.
  apply list_elem_of_fmap_2. apply list_elem_of_filter. done.
Qed.

Lemma consistent_delete_message message_id s :
  consistent s → consistent (snd (delete_message message_id s)).
Proof.
  intros Hs. unfold delete_message, get_connection, tbind, delete_from_messages, tret.
  simpl. apply consistent_delete; [done| |done].
  intros r Hr _. by apply (thread_fk s Hs).
Qed.

(** ** Writing layouts *)

Lemma set_layout_same r : set_layout (m_layout_data r) r = r.
Proof. by destruct r. Qed.

Lemma relayout_same s : relayout m_layout_data s = s.
Proof.
  destruct s as [ts ms st sm]. unfold relayout. simpl. f_equal.
  rewrite <- (list_fmap_id ms) at 2. apply list_fmap_ext.
  intros _ r _. apply set_layout_same.
Qed.

Lemma relayout_relayout f g s :
  relayout g (relayout f s) = relayout (λ r, g (set_layout (f r) r)) s.
Proof.
  unfold relayout. simpl. f_equal. rewrite <- list_fmap_compose.
  apply list_fmap_ext. intros _ r _. done.
Qed.

Lemma update_layout_where_relayout (P : message_row → Prop) `{!∀ r, Decision (P r)}
    layout s :
  update_layout_where P layout s =
    Returned (tt, relayout (λ r, if decide (P r) then layout else m_layout_data r) s).
Proof.
  unfold update_layout_where, relayout. do 3 f_equal.
  apply list_fmap_ext. intros _ r _.
  destruct (decide (P r)); [done|by rewrite set_layout_same].
Qed.

Lemma relayout_ids f s : message_ids (relayout f s) = message_ids s.
Proof.
  unfold message_ids, relayout. simpl. rewrite <- list_fmap_compose.
  by apply list_fmap_ext.
Qed.

Lemma relayout_elem_of f s r' :
  r' ∈ messages (relayout f s) ↔ ∃ r, r' = set_layout (f r) r ∧ r ∈ messages s.
Proof. unfold relayout. simpl. apply list_elem_of_fmap. Qed.

Lemma consistent_relayout f s : consistent s → consistent (relayout f s).
Proof.
  intros [Htp Hmp Hts Hms Htf Hpf].
  split; rewrite ?relayout_ids; try done.
  - intros r' (r & -> & Hr)%relayout_elem_of. exact (Htf r Hr).
  - intros r' p (r & -> & Hr)%relayout_elem_of Hp. exact (Hpf r p Hr Hp).
Qed.

(** The loop of [update_thread_layouts] writes [layout_data] only, and
    only on rows of the thread it was called for. *)
Lemma update_each_relayout nt thread_id layouts s :
  match update_each nt thread_id layouts s with
  | Returned (_, s') =>
      ∃ f, s' = relayout f s ∧
           ∀ r, m_thread_id r ≠ thread_id → f r = m_layout_data r
  | Raised _ => True
  end.
Proof.
  revert s. induction layouts as [|[key value] rest IH]; intros s.
  { simpl. exists m_layout_data. by rewrite relayout_same. }
  simpl. unfold tbind, bound, tlift.
  destruct (bind_param value) as [l|]; [|done].
  destruct (bind_param key) as [k|]; [|done].
  rewrite update_layout_where_relayout.
  match goal with |- context [update_each _ _ _ ?s1] => specialize (IH s1) end.
  destruct (update_each nt thread_id rest _) as [[u s2]|]; [|done].
  destruct IH as (f2 & -> & Hf2).
  eexists. split; [apply relayout_relayout|].
  intros r Hr. simpl.
  destruct (decide (names_row nt k r ∧ m_thread_id r = thread_id)) as [[_ ?]|_]; [done|].
  rewrite set_layout_same. by apply Hf2.
Qed.

Lemma update_thread_layouts_cases nt thread_id layouts s :
  (∃ e, update_thread_layouts nt thread_id layouts s = (Raised e, s)) ∨
  (∃ f, update_thread_layouts nt thread_id layouts s = (Returned true, relayout f s) ∧
        ∀ r, m_thread_id r ≠ thread_id → f r = m_layout_data r).
Proof.
  pose proof (update_each_relayout nt thread_id layouts s) as H.
  unfold update_thread_layouts, get_connection, tbind, tret.
  destruct (update_each nt thread_id layouts s) as [[u s']|e].
  - right. destruct H as (f & -> & Hf). by exists f.
  - left. by exists e.
Qed.

Lemma clear_thread_layouts_relayout thread_id s :
  clear_thread_layouts thread_id s =
    (Returned true,
     relayout (λ r, if decide (m_thread_id r = thread_id) then None
                    else m_layout_data r) s).
Proof.
  unfold clear_thread_layouts, get_connection, tbind, tret.
  by rewrite update_layout_where_relayout.
Qed.

Lemma update_message_layout_cases message_id layout_data s :
  (∃ e, update_message_layout message_id layout_data s = (Raised e, s)) ∨
  (∃ f, update_message_layout message_id layout_data s = (Returned true, relayout f s)).
Proof.
  unfold update_message_layout, get_connection, tbind, tret, bound, tlift.
  destruct (bind_param layout_data) as [l|e]; [|left; by exists e].
  rewrite update_layout_where_relayout. right. by eexists.
Qed.

(** ** Every state of the store satisfies the schema *)

Lemma consistent_step nt s s' : step nt s s' → consistent s → consistent s'.
Proof.
  intros Hstep Hs. destruct Hstep.
  - by apply consistent_create_thread.
  - by apply consistent_delete_thread.
  - by apply consistent_create_message.
  - by apply consistent_delete_message.
  - destruct (update_message_layout_cases message_id layout_data s)
      as [[e ->]|[f ->]]; [done|by apply consistent_relayout].
  - destruct (update_thread_layouts_cases nt thread_id layouts s)
      as [[e ->]|(f & -> & _)]; [done|by apply consistent_relayout].
  - rewrite clear_thread_layouts_relayout. by apply consistent_relayout.
Qed.

Lemma reachable_consistent nt s : reachable nt s → consistent s.
Proof.
  induction 1 as [|s s' _ IH Hstep]; [apply consistent_empty|].
  by eapply consistent_step.
Qed.

(** ** Deleting a message *)



Lemma delete_message_eq message_id s :
  delete_message message_id s =
    (Returned true,
     Db (threads s) (delete_rows (λ r, m_id r = message_id) (messages s))
        (seq_threads s) (seq_messages s)).
Proof. done. Qed.

Lemma delete_thread_eq thread_id s :
  delete_thread thread_id s =
    (Returned true,
     Db (filter (λ t, t_id t ≠ thread_id) (threads s))
        (delete_rows
           (λ r, m_thread_id r ∈ t_id <$> filter (λ t, t_id t = thread_id) (threads s))
           (messages s))
        (seq_threads s) (seq_messages s)).
Proof. done. Qed.


Lemma demo_reachable : reachable no_numeric_text demo_db.
Proof.
  apply (reachable_step _ demo_6); [|apply step_create_message].
  apply (reachable_step _ demo_5); [|apply step_create_message].
  apply (reachable_step _ demo_4); [|apply step_create_message].
  apply (reachable_step _ demo_3); [|apply step_create_message].
  apply (reachable_step _ demo_2); [|apply step_create_message].
  apply (reachable_step _ demo_1); [|apply step_create_thread].
  apply (reachable_step _ (init_db empty_db)); [|apply step_create_thread].
  apply reachable_init.
Qed.

Lemma demo_consistent : consistent demo_db.
Proof. exact (reachable_consistent _ _ demo_reachable). Qed.



(** ** Deleting a thread *)



(** ** Deleting what is not there *)






(** ** Reading *)

Global Instance newer_first_total : Total newer_first.
Proof. intros a b. unfold newer_first. lia. Qed.
Global Instance newer_first_trans : Transitive newer_first.
Proof. intros a b c. unfold newer_first. lia. Qed.
Global Instance older_first_total : Total older_first.
Proof. intros a b. unfold older_first. lia. Qed.
Global Instance older_first_trans : Transitive older_first.
Proof. intros a b c. unfold older_first. lia. Qed.

Lemma get_all_threads_eq s :
  get_all_threads s =
    (Returned (merge_sort newer_first (summary s <$> threads s)), s).
Proof. done. Qed.


Lemma get_thread_with_messages_stored t s :
  t ∈ thread_ids s →
  ∃ v, get_thread_with_messages t s = (Returned (Some v), s) ∧
       tv_id v = t ∧
       tv_messages v = merge_sort older_first (in_thread t s).
Proof.
  intros Ht. unfold get_thread_with_messages, get_connection.
  destruct (filter (λ row, t_id row = t) (threads s)) as [|row rest] eqn:E.
  - exfalso. unfold thread_ids in Ht.
    apply list_elem_of_fmap in Ht as (row & -> & Hrow).
    by eapply (filter_nil_not_elem_of _ _ row E).
  - eexists. split; [done|]. simpl. split; [|done].
    assert (Hrow : row ∈ filter (λ row, t_id row = t) (threads s))
      by (rewrite E; left).
    by apply list_elem_of_filter in Hrow as [? _].
Qed.


(** ** The layout cache *)

Lemma relayout_same_but_layout f s :
  Forall2 same_but_layout (messages s) (messages (relayout f s)).
Proof.
  unfold relayout. simpl. apply Forall2_fmap_r. apply Forall_Forall2_diag.
  apply Forall_true. intros r. by repeat split.
Qed.

Lemma relayout_lookup_frame f s i r :
  messages s !! i = Some r → f r = m_layout_data r →
  messages (relayout f s) !! i = Some r.
Proof.
  intros Hi Hf. unfold relayout. simpl. rewrite list_lookup_fmap, Hi. simpl.
  by rewrite Hf, set_layout_same.
Qed.

Lemma in_thread_relayout t f s :
  in_thread t (relayout f s) = (λ r, set_layout (f r) r) <$> in_thread t s.
Proof.
  unfold in_thread, relayout. simpl.
  induction (messages s) as [|r rows IH]; [done|].
  rewrite fmap_cons, !filter_cons. simpl. rewrite IH.
  by destruct (decide (m_thread_id r = t)).
Qed.

Lemma update_thread_layouts_relayout nt t layouts s :
  ∃ f, snd (update_thread_layouts nt t layouts s) = relayout f s ∧
       ∀ r, m_thread_id r ≠ t → f r = m_layout_data r.
Proof.
  destruct (update_thread_layouts_cases nt t layouts s)
    as [[e ->]|(f & -> & Hf)].
  - exists m_layout_data. by rewrite relayout_same.
  - by exists f.
Qed.

(** C10. The two layout operations write [layout_data] and nothing else:
    the threads and both counters are as before, the rows of [messages]
    are the same rows in the same places up to [layout_data], and
    [clear_thread_layouts t] leaves the rows of the other threads as
    they were. *)
Theorem layout_writes_touch_layout_only nt s t layouts :
  let s1 := snd (update_thread_layouts nt t layouts s) in
  let s2 := snd (clear_thread_layouts t s) in
  (threads s1 = threads s ∧ seq_threads s1 = seq_threads s ∧
   seq_messages s1 = seq_messages s ∧
   Forall2 same_but_layout (messages s) (messages s1)) ∧
  (threads s2 = threads s ∧ seq_threads s2 = seq_threads s ∧
   seq_messages s2 = seq_messages s ∧
   Forall2 same_but_layout (messages s) (messages s2) ∧
   ∀ i r, messages s !! i = Some r → m_thread_id r ≠ t →
          messages s2 !! i = Some r).
Proof.
  cbv zeta. split.
  - destruct (update_thread_layouts_relayout nt t layouts s) as (f & -> & _).
    repeat split. apply relayout_same_but_layout.
  - rewrite clear_thread_layouts_relayout. simpl.
    repeat split; [apply relayout_same_but_layout|].
    intros i r Hi Hr. apply relayout_lookup_frame; [done|].
    by destruct (decide (m_thread_id r = t)).
Qed.

Lemma relayout_unchanged f s :
  (∀ r, r ∈ messages s → f r = m_layout_data r) → relayout f s = s.
Proof.
  intros Hf. rewrite <- (relayout_same s) at 2. unfold relayout. f_equal.
  apply list_fmap_ext. intros i r Hi. rewrite Hf; [done|].
  apply list_elem_of_lookup. by exists i.
Qed.

(** An entry whose key names no row of the thread is passed over by the
    loop, wherever it stands among the entries. *)
Lemma update_each_skip nt t key value k l before after s :
  bind_param key = Returned k →
  bind_param value = Returned l →
  (∀ r, r ∈ messages s → names_row nt k r → m_thread_id r ≠ t) →
  update_each nt t (before ++ (key, value) :: after) s =
  update_each nt t (before ++ after) s.
Proof.
  intros Hk Hl. revert s.
  induction before as [|[key0 value0] before IH]; intros s Hout.
  - simpl. unfold tbind, bound, tlift. rewrite Hl, Hk.
    rewrite update_layout_where_relayout, relayout_unchanged; [done|].
    intros r Hr.
    destruct (decide (names_row nt k r ∧ m_thread_id r = t)) as [[Hn Ht]|_];
      [|done].
    by destruct (Hout r Hr Hn).
  - simpl. unfold tbind, bound, tlift.
    destruct (bind_param value0) as [l0|]; [|done].
    destruct (bind_param key0) as [k0|]; [|done].
    rewrite update_layout_where_relayout. rewrite IH; [done|].
    intros r' (r & -> & Hr)%relayout_elem_of Hn. exact (Hout r Hr Hn).
Qed.

(** C6. [update_thread_layouts t1] writes to rows of thread [t1] only.
    An entry whose key names no row of [t1] but, say, a message of
    another thread is skipped without an error: alone it leaves the
    database as it was, and among other entries the call does what it
    does without it. Whatever the entries, every row of another thread
    is afterwards what it was. *)
Theorem layouts_are_scoped nt s t1 key value k l before after :
  bind_param key = Returned k →
  bind_param value = Returned l →
  (∀ r, r ∈ messages s → names_row nt k r → m_thread_id r ≠ t1) →
  update_thread_layouts nt t1 [(key, value)] s = (Returned true, s) ∧
  update_thread_layouts nt t1 (before ++ (key, value) :: after) s =
    update_thread_layouts nt t1 (before ++ after) s ∧
  ∀ layouts i r,
    messages s !! i = Some r → m_thread_id r ≠ t1 →
    messages (snd (update_thread_layouts nt t1 layouts s)) !! i = Some r.
Proof.
  intros Hk Hl Hout. split; [|split].
  - pose proof (update_each_skip nt t1 key value k l [] [] s Hk Hl Hout) as H.
    unfold update_thread_layouts, get_connection, tbind.
    simpl app in H. by rewrite H.
  - unfold update_thread_layouts, get_connection, tbind.
    by rewrite (update_each_skip nt t1 key value k l before after s Hk Hl Hout).
  - intros layouts i r Hi Hr.
    destruct (update_thread_layouts_relayout nt t1 layouts s) as (f & -> & Hf).
    apply relayout_lookup_frame; [done|]. by apply Hf.
Qed.

Lemma layouts_are_scoped_witness :
  bind_param (PyInt 5) = Returned (Int 5) ∧
  bind_param (PyStr "x") = Returned (Text "x") ∧
  (∀ r, r ∈ messages demo_db → names_row no_numeric_text (Int 5) r →
        m_thread_id r ≠ 1) ∧
  update_thread_layouts no_numeric_text 1 [(PyInt 5, PyStr "x")] demo_db =
    (Returned true, demo_db) ∧
  update_thread_layouts no_numeric_text 1
    ([(PyInt 1, PyStr "a")] ++ (PyInt 5, PyStr "x") :: [(PyInt 2, PyStr "b")])
    demo_db =
    update_thread_layouts no_numeric_text 1
      ([(PyInt 1, PyStr "a")] ++ [(PyInt 2, PyStr "b")]) demo_db ∧
  ∀ layouts i r,
    messages demo_db !! i = Some r → m_thread_id r ≠ 1 →
    messages (snd (update_thread_layouts no_numeric_text 1 layouts demo_db)) !! i
      = Some r.
Proof.
  assert (Hout : ∀ r, r ∈ messages demo_db →
                      names_row no_numeric_text (Int 5) r → m_thread_id r ≠ 1).
  { intros r Hr Hn. unfold names_row in Hn. simpl in Hn.
    injection Hn as Hid. vm_compute in Hr.
    repeat (apply elem_of_cons in Hr as [->|Hr]; [simpl in *; lia|]).
    by apply not_elem_of_nil in Hr. }
  exact (conj eq_refl (conj eq_refl (conj Hout
           (layouts_are_scoped no_numeric_text demo_db 1 (PyInt 5) (PyStr "x")
              (Int 5) (Text "x") [(PyInt 1, PyStr "a")] [(PyInt 2, PyStr "b")]
              eq_refl eq_refl Hout)))).
Defined.

Lemma elem_of_merge_sort {A} (R : relation A) `{!∀ x y, Decision (R x y)}
    (l : list A) x :
  x ∈ merge_sort R l ↔ x ∈ l.
Proof. by rewrite merge_sort_Permutation. Qed.

Lemma update_one_layout nt t m b s :
  update_thread_layouts nt t [(PyInt m, PyStr b)] s =
    (Returned true,
     relayout (λ r, if decide (m_id r = m ∧ m_thread_id r = t) then Some b
                    else m_layout_data r) s).
Proof.
  unfold update_thread_layouts, get_connection, update_each, tbind, bound,
    tlift, tret, update_layout_where, relayout, names_row. simpl.
  do 2 f_equal. apply list_fmap_ext. intros _ r _.
  destruct (decide (Some m = Some (m_id r) ∧ m_thread_id r = t)) as [[Hm Ht]|Hno];
    destruct (decide (m_id r = m ∧ m_thread_id r = t)) as [[Hm' Ht']|Hno'];
    try done.
  - destruct Hno'. split; [congruence|done].
  - destruct Hno. split; [congruence|done].
  - by rewrite set_layout_same.
Qed.

(** C5. For a stored thread [t] and a message [m] of it,
    [update_thread_layouts t {m: b}] returns normally, and
    [get_thread_with_messages t] then shows [m] with [layout_data = b];
    after [clear_thread_layouts t], which returns normally as well, it
    shows the same messages, every one without [layout_data]. *)
Theorem layout_round_trip nt s t m b :
  t ∈ thread_ids s →
  (∃ r, r ∈ in_thread t s ∧ m_id r = m) →
  let s1 := snd (update_thread_layouts nt t [(PyInt m, PyStr b)] s) in
  let s2 := snd (clear_thread_layouts t s1) in
  fst (update_thread_layouts nt t [(PyInt m, PyStr b)] s) = Returned true ∧
  (∃ v, get_thread_with_messages t s1 = (Returned (Some v), s1) ∧
        (∃ r, r ∈ tv_messages v ∧ m_id r = m) ∧
        (∀ r, r ∈ tv_messages v → m_id r = m → m_layout_data r = Some b)) ∧
  fst (clear_thread_layouts t s1) = Returned true ∧
  (∃ v, get_thread_with_messages t s2 = (Returned (Some v), s2) ∧
        m_id <$> tv_messages v ≡ₚ m_id <$> in_thread t s ∧
        (∀ r, r ∈ tv_messages v → m_layout_data r = None)).
Proof.
  intros Ht (r0 & Hr0 & Hm0). cbv zeta.
  rewrite update_one_layout. cbn [fst snd].
  set (f1 := λ r : message_row,
         if decide (m_id r = m ∧ m_thread_id r = t) then Some b
         else m_layout_data r).
  rewrite clear_thread_layouts_relayout. cbn [fst snd].
  set (f2 := λ r : message_row,
         if decide (m_thread_id r = t) then None else m_layout_data r).
  split; [done|]. split; [|split; [done|]].
  - destruct (get_thread_with_messages_stored t (relayout f1 s) Ht)
      as (v & Hget & _ & Hv).
    exists v. split; [exact Hget|]. rewrite Hv. split.
    + eexists. split.
      * apply elem_of_merge_sort. rewrite in_thread_relayout.
        apply list_elem_of_fmap_2. exact Hr0.
      * done.
    + intros r' Hr' Hid. apply elem_of_merge_sort in Hr'.
      rewrite in_thread_relayout in Hr'.
      apply list_elem_of_fmap in Hr' as (r & -> & Hr). simpl in *.
      unfold in_thread in Hr. apply list_elem_of_filter in Hr as [Hthr _].
      unfold f1. by rewrite decide_True.
  - destruct (get_thread_with_messages_stored t (relayout f2 (relayout f1 s)) Ht)
      as (v & Hget & _ & Hv).
    exists v. split; [exact Hget|]. rewrite Hv. split.
    + rewrite merge_sort_Permutation, !in_thread_relayout.
      rewrite <- !list_fmap_compose.
      rewrite (list_fmap_ext _ m_id (in_thread t s)); [done|]. by intros.
    + intros r'' Hr''. apply elem_of_merge_sort in Hr''.
      rewrite in_thread_relayout in Hr''.
      apply list_elem_of_fmap in Hr'' as (r' & -> & Hr'). simpl.
      rewrite in_thread_relayout in Hr'.
      apply list_elem_of_fmap in Hr' as (r & -> & Hr). simpl.
      unfold in_thread in Hr. apply list_elem_of_filter in Hr as [Hthr _].
      unfold f2. simpl. by rewrite decide_True.
Qed.

Lemma layout_round_trip_witness :
  1 ∈ thread_ids demo_db ∧
  (∃ r, r ∈ in_thread 1 demo_db ∧ m_id r = 4) ∧
  let s1 := snd (update_thread_layouts no_numeric_text 1
                   [(PyInt 4, PyStr "{x:10}")] demo_db) in
  let s2 := snd (clear_thread_layouts 1 s1) in
  fst (update_thread_layouts no_numeric_text 1
         [(PyInt 4, PyStr "{x:10}")] demo_db) = Returned true ∧
  (∃ v, get_thread_with_messages 1 s1 = (Returned (Some v), s1) ∧
        (∃ r, r ∈ tv_messages v ∧ m_id r = 4) ∧
        (∀ r, r ∈ tv_messages v → m_id r = 4 →
              m_layout_data r = Some "{x:10}")) ∧
  fst (clear_thread_layouts 1 s1) = Returned true ∧
  (∃ v, get_thread_with_messages 1 s2 = (Returned (Some v), s2) ∧
        m_id <$> tv_messages v ≡ₚ m_id <$> in_thread 1 demo_db ∧
        (∀ r, r ∈ tv_messages v → m_layout_data r = None)).
Proof.
  assert (Ht : 1 ∈ thread_ids demo_db) by compute_done.
  assert (Hm : ∃ r, r ∈ in_thread 1 demo_db ∧ m_id r = 4).
  { exists demo_leaf. split; [compute_done|done]. }
  exact (conj Ht (conj Hm
           (layout_round_trip no_numeric_text demo_db 1 4 "{x:10}" Ht Hm))).
Defined.

(** ** Creating a message *)

Lemma insert_message_Raised nt tv pv wv cv now s e :
  insert_message nt tv pv wv cv now s = Raised e → ∃ c, e = IntegrityError c.
Proof.
  unfold insert_message, not_null, thread_key, parent_key. intros H.
  destruct tv as [|zt|st]; [injection H as <-; by eexists|..];
    (destruct (as_text wv); [|injection H as <-; by eexists]);
    (destruct (as_text cv); [|injection H as <-; by eexists]);
    simpl in H.
  - destruct (decide (zt ∈ thread_ids s)); [|injection H as <-; by eexists].
    destruct pv as [|zp|sp]; simpl in H; [done| |].
    + destruct (decide (zp ∈ message_ids s ∨ zp = seq_messages s + 1));
        [done|injection H as <-; by eexists].
    + destruct (nt sp) as [zp|]; [|injection H as <-; by eexists].
      destruct (decide (zp ∈ message_ids s ∨ zp = seq_messages s + 1));
        [done|injection H as <-; by eexists].
  - destruct (nt st) as [zt|]; [|injection H as <-; by eexists].
    destruct (decide (zt ∈ thread_ids s)); [|injection H as <-; by eexists].
    destruct pv as [|zp|sp]; simpl in H; [done| |].
    + destruct (decide (zp ∈ message_ids s ∨ zp = seq_messages s + 1));
        [done|injection H as <-; by eexists].
    + destruct (nt sp) as [zp|]; [|injection H as <-; by eexists].
      destruct (decide (zp ∈ message_ids s ∨ zp = seq_messages s + 1));
        [done|injection H as <-; by eexists].
Qed.

(** C8. A call of [create_message] whose [thread_id] is not the key of a
    stored thread raises and inserts nothing, with an integrity error
    when the driver can bind the four arguments; and in every state of
    the store the [thread_id] of every message is the key of a stored
    thread. *)
Theorem create_message_needs_thread nt :
  (∀ s thread_id parent_id writer_name content now,
     ¬ references_thread nt thread_id s →
     (∃ e, fst (create_message nt thread_id parent_id writer_name content now s)
             = Raised e ∧
           (binds thread_id → binds parent_id → binds writer_name →
            binds content → ∃ c, e = IntegrityError c)) ∧
     snd (create_message nt thread_id parent_id writer_name content now s) = s) ∧
  (∀ s, reachable nt s → ∀ r, r ∈ messages s → m_thread_id r ∈ thread_ids s).
Proof.
  split.
  - intros s thread_id parent_id writer_name content now Href.
    unfold create_message, get_connection, tbind, bound, tlift, tret, binds.
    destruct (bind_param thread_id) as [tv|e] eqn:Et;
      [|split; [exists e; split; [done|by intros ?]|done]].
    destruct (bind_param parent_id) as [pv|e];
      [|split; [exists e; split; [done|by intros ? ?]|done]].
    destruct (bind_param writer_name) as [wv|e];
      [|split; [exists e; split; [done|by intros ? ? ?]|done]].
    destruct (bind_param content) as [cv|e];
      [|split; [exists e; split; [done|by intros ? ? ? ?]|done]].
    destruct (insert_message nt tv pv wv cv now s) as [[rowid s']|e] eqn:E.
    + exfalso. apply Href.
      apply insert_message_Returned in E as (t & _ & _ & _ & Has & Hin & _).
      by exists tv, t.
    + split; [|done]. exists e. split; [done|]. intros _ _ _ _.
      by eapply insert_message_Raised.
  - intros s Hs. apply thread_fk. by eapply reachable_consistent.
Qed.

Lemma create_message_needs_thread_witness :
  ¬ references_thread no_numeric_text (PyInt 9) demo_db ∧
  reachable no_numeric_text demo_db ∧
  fst (create_message no_numeric_text
         (PyInt 9) PyNone (PyStr "A") (PyStr "hi") 107 demo_db)
    = Raised (IntegrityError ForeignKey) ∧
  snd (create_message no_numeric_text
         (PyInt 9) PyNone (PyStr "A") (PyStr "hi") 107 demo_db) = demo_db ∧
  (∀ r, r ∈ messages demo_db → m_thread_id r ∈ thread_ids demo_db).
Proof.
  assert (Href : ¬ references_thread no_numeric_text (PyInt 9) demo_db).
  { intros (tv & t & [= <-] & [= <-] & Hin). revert Hin. compute_done. }
  pose proof (create_message_needs_thread no_numeric_text) as [Hfail Hinv].
  destruct (Hfail demo_db (PyInt 9) PyNone (PyStr "A") (PyStr "hi") 107 Href)
    as [_ Hsame].
  exact (conj Href (conj demo_reachable
           (conj eq_refl (conj Hsame (Hinv demo_db demo_reachable))))).
Defined.

(** C4, as the store has it. In every state of the store the
    [parent_id] of a message, when it has one, is the id of a stored
    message; the thread of that message is not compared with the thread
    of its child. *)
Theorem parents_are_stored nt s : reachable nt s → parents_stored s.
Proof.
  intros Hs r p Hr Hp.
  pose proof (parent_fk s (reachable_consistent nt s Hs) r p Hr Hp) as Hin.
  unfold message_ids in Hin.
  apply list_elem_of_fmap in Hin as (above & -> & Habove). by exists above.
Qed.

Lemma cross_thread_reachable : reachable no_numeric_text (snd cross_thread_call).
Proof.
  apply (reachable_step _ demo_db); [exact demo_reachable|].
  apply step_create_message.
Qed.

Lemma parents_are_stored_witness :
  reachable no_numeric_text (snd cross_thread_call) ∧
  parents_stored (snd cross_thread_call).
Proof.
  exact (conj cross_thread_reachable
           (parents_are_stored no_numeric_text (snd cross_thread_call)
              cross_thread_reachable)).
Defined.

(** C4, as stated, fails: on the small database, [create_message] for
    the second thread with the first message of the first thread as
    parent returns normally, and the state it commits has a message
    whose parent is in another thread. *)
Lemma cross_thread_parent_is_accepted :
  fst cross_thread_call =
    Returned (PyDict [("id", PyInt 6); ("thread_id", PyInt 2);
                      ("parent_id", PyInt 1); ("writer_name", PyStr "C");
                      ("content", PyStr "across")]) ∧
  cross_thread_row ∈ messages (snd cross_thread_call) ∧
  reachable no_numeric_text (snd cross_thread_call) ∧
  ¬ same_thread_parents (snd cross_thread_call).
Proof.
  assert (Hrow : cross_thread_row ∈ messages (snd cross_thread_call))
    by compute_done.
  split; [reflexivity|]. split; [exact Hrow|].
  split; [exact cross_thread_reachable|].
  intros Hsame.
  destruct (Hsame cross_thread_row 1 Hrow eq_refl) as (above & Hin & Hid & Hthr).
  vm_compute in Hin.
  repeat (apply elem_of_cons in Hin as [->|Hin]; [simpl in *; lia|]).
  by apply not_elem_of_nil in Hin.
Qed.

(** ** Validation in the routes *)

(** C3, as the routes have it. A request without a body, or with an
    empty one, or with an object that has no entry for a required field
    is answered with status 400 and an error message, and nothing is
    written: [title] for a thread; [thread_id], [writer_name] and
    [content] for a message. *)
Theorem missing_fields_are_rejected nt data now s :
  (lacks "title" data →
     app.create_thread data now s =
       (Returned (app.error "Title is required"), s)) ∧
  (∀ field, field ∈ app.required → lacks field data →
     ∃ message,
       app.create_message nt data now s = (Returned (app.error message), s)).
Proof.
  split.
  - intros [Hfalsy|(items & -> & Hnone)]; unfold app.create_thread.
    + by rewrite Hfalsy.
    + destruct (Py.truthy (PyDict items)); [|done]. simpl.
      by rewrite Hnone.
  - intros field Hfield [Hfalsy|(items & -> & Hnone)]; unfold app.create_message.
    + rewrite Hfalsy. by eexists.
    + destruct (Py.truthy (PyDict items)); [|by eexists]. simpl.
      destruct (Py.lookup_key "thread_id" items) eqn:E1; [|by eexists].
      destruct (Py.lookup_key "writer_name" items) eqn:E2; [|by eexists].
      destruct (Py.lookup_key "content" items) eqn:E3; [|by eexists].
      exfalso. unfold app.required in Hfield.
      repeat (apply elem_of_cons in Hfield as [->|Hfield]; [congruence|]).
      by apply not_elem_of_nil in Hfield.
Qed.

Lemma missing_fields_are_rejected_witness :
  lacks "title" (PyDict [("name", PyStr "Demo")]) ∧
  "content" ∈ app.required ∧
  lacks "content" (PyDict [("thread_id", PyInt 1); ("writer_name", PyStr "A")]) ∧
  app.create_thread (PyDict [("name", PyStr "Demo")]) 107 demo_db =
    (Returned (app.error "Title is required"), demo_db) ∧
  ∃ message,
    app.create_message no_numeric_text
      (PyDict [("thread_id", PyInt 1); ("writer_name", PyStr "A")]) 107 demo_db =
      (Returned (app.error message), demo_db).
Proof.
  assert (H1 : lacks "title" (PyDict [("name", PyStr "Demo")])).
  { right. by eexists. }
  assert (H2 : "content" ∈ app.required) by compute_done.
  assert (H3 : lacks "content"
                 (PyDict [("thread_id", PyInt 1); ("writer_name", PyStr "A")])).
  { right. by eexists. }
  exact (conj H1 (conj H2 (conj H3
    (conj
      (proj1 (missing_fields_are_rejected no_numeric_text
                (PyDict [("name", PyStr "Demo")]) 107 demo_db) H1)
      (proj2 (missing_fields_are_rejected no_numeric_text
                (PyDict [("thread_id", PyInt 1); ("writer_name", PyStr "A")])
                107 demo_db) "content" H2 H3))))).
Defined.

(** C3, as stated, fails: an empty title passes the check of the route
    and a thread with that title is inserted; empty [writer_name] and
    [content] pass as well and the message is inserted. *)
Lemma empty_fields_are_accepted :
  app.create_thread (PyDict [("title", PyStr "")]) 100 empty_db =
    (Returned (Response 201 (PyDict [("id", PyInt 1); ("title", PyStr "")])),
     Db [ThreadRow 1 "" 100] [] 1 0) ∧
  app.create_message no_numeric_text
    (PyDict [("thread_id", PyInt 1); ("writer_name", PyStr "");
             ("content", PyStr "")]) 101 demo_1 =
    (Returned (Response 201
       (PyDict [("id", PyInt 1); ("thread_id", PyInt 1); ("parent_id", PyNone);
                ("writer_name", PyStr ""); ("content", PyStr "")])),
     Db [ThreadRow 1 "Demo" 100] [MessageRow 1 1 None "" "" None 101] 1 1).
Proof. split; reflexivity. Qed.

(** * Further properties of the store *)

(** ** Deletes take the subtree and nothing else *)















(** ** Repeating a delete *)




(** ** Bulk updates of layouts *)

Lemma update_each_app nt t l1 l2 s u s1 :
  update_each nt t l1 s = Returned (u, s1) →
  update_each nt t (l1 ++ l2) s = update_each nt t l2 s1.
Proof.
  revert s. induction l1 as [|[key value] l1 IH]; intros s H.
  - simpl in H. unfold tret in H. by injection H as _ ->.
  - simpl in *. unfold tbind, bound, tlift in *.
    destruct (bind_param value) as [l|]; [|done].
    destruct (bind_param key) as [k|]; [|done].
    rewrite update_layout_where_relayout in *. by apply IH.
Qed.

Lemma update_each_Returned nt t layouts s :
  Forall (λ entry, binds entry.1 ∧ binds entry.2) layouts →
  ∃ s', update_each nt t layouts s = Returned (tt, s').
Proof.
  intros Hall. revert s.
  induction Hall as [|[key value] rest [Hk Hv] _ IH]; intros s.
  { by eexists. }
  simpl in *. unfold tbind, bound, tlift, binds in *.
  destruct (bind_param value) as [l|]; [|done].
  destruct (bind_param key) as [k|]; [|done].
  rewrite update_layout_where_relayout. apply IH.
Qed.

Lemma update_each_Raised nt t layouts s :
  ¬ Forall (λ entry, binds entry.1 ∧ binds entry.2) layouts →
  update_each nt t layouts s = Raised BindingError.
Proof.
  revert s. induction layouts as [|[key value] rest IH]; intros s Hnot.
  { destruct Hnot. constructor. }
  simpl. unfold tbind, bound, tlift.
  destruct (bind_param value) as [l|e] eqn:Ev;
    [|destruct value; by simplify_eq/=].
  destruct (bind_param key) as [k|e] eqn:Ek;
    [|destruct key; by simplify_eq/=].
  rewrite update_layout_where_relayout. apply IH.
  intros Hrest. apply Hnot. constructor; [|done].
  unfold binds. simpl. by rewrite Ev, Ek.
Qed.

(** X5. [update_thread_layouts] is all or nothing. When every key and
    every value of [layouts] is a value the driver can bind, it returns
    [True]; when one is not (a list or a dictionary), it raises and the
    database is what it was: the entries before the offending one are
    not applied either. *)
Theorem update_thread_layouts_all_or_nothing nt t layouts s :
  (Forall (λ entry, binds entry.1 ∧ binds entry.2) layouts →
     fst (update_thread_layouts nt t layouts s) = Returned true) ∧
  (¬ Forall (λ entry, binds entry.1 ∧ binds entry.2) layouts →
     update_thread_layouts nt t layouts s = (Raised BindingError, s)).
Proof.
  unfold update_thread_layouts, get_connection, tbind, tret. split; intros H.
  - destruct (update_each_Returned nt t layouts s H) as [s' ->]. done.
  - by rewrite (update_each_Raised nt t layouts s H).
Qed.

Lemma update_thread_layouts_all_or_nothing_witness :
  Forall (λ entry : pyval * pyval, binds entry.1 ∧ binds entry.2)
    [(PyInt 1, PyStr "a"); (PyStr "2", PyNone)] ∧
  ¬ Forall (λ entry : pyval * pyval, binds entry.1 ∧ binds entry.2)
    [(PyInt 1, PyStr "a"); (PyInt 2, PyList [])] ∧
  fst (update_thread_layouts no_numeric_text 1
         [(PyInt 1, PyStr "a"); (PyStr "2", PyNone)] demo_db) = Returned true ∧
  update_thread_layouts no_numeric_text 1
    [(PyInt 1, PyStr "a"); (PyInt 2, PyList [])] demo_db
    = (Raised BindingError, demo_db).
Proof.
  assert (H1 : Forall (λ entry : pyval * pyval, binds entry.1 ∧ binds entry.2)
                 [(PyInt 1, PyStr "a"); (PyStr "2", PyNone)]).
  { repeat constructor. }
  assert (H2 : ¬ Forall (λ entry : pyval * pyval, binds entry.1 ∧ binds entry.2)
                 [(PyInt 1, PyStr "a"); (PyInt 2, PyList [])]).
  { intros H. inversion H as [|? ? _ H']. inversion H' as [|? ? [_ Hb] _].
    discriminate Hb. }
  exact (conj H1 (conj H2 (conj
    (proj1 (update_thread_layouts_all_or_nothing no_numeric_text 1 _ demo_db) H1)
    (proj2 (update_thread_layouts_all_or_nothing no_numeric_text 1 _ demo_db) H2)))).
Defined.

(** X6. After a bulk update of a thread that returned normally, a
    second bulk update answers as the one bulk update with the entries
    of the first followed by the entries of the second would have, and
    when it returns normally the database is the same too. *)
Theorem update_thread_layouts_app nt t l1 l2 s :
  fst (update_thread_layouts nt t l1 s) = Returned true →
  let s1 := snd (update_thread_layouts nt t l1 s) in
  fst (update_thread_layouts nt t (l1 ++ l2) s) =
    fst (update_thread_layouts nt t l2 s1) ∧
  (fst (update_thread_layouts nt t l2 s1) = Returned true →
   snd (update_thread_layouts nt t (l1 ++ l2) s) =
     snd (update_thread_layouts nt t l2 s1)).
Proof.
  unfold update_thread_layouts, get_connection, tbind, tret.
  destruct (update_each nt t l1 s) as [[u s1]|e] eqn:E1; [|done]. intros _.
  cbn [snd]. rewrite (update_each_app nt t l1 l2 s u s1 E1).
  by destruct (update_each nt t l2 s1) as [[u2 s2]|e2].
Qed.

Lemma update_thread_layouts_app_witness :
  fst (update_thread_layouts no_numeric_text 1 [(PyInt 1, PyStr "a")] demo_db)
    = Returned true ∧
  let s1 := snd (update_thread_layouts no_numeric_text 1
                   [(PyInt 1, PyStr "a")] demo_db) in
  fst (update_thread_layouts no_numeric_text 1
         ([(PyInt 1, PyStr "a")] ++ [(PyInt 2, PyStr "b")]) demo_db) =
    fst (update_thread_layouts no_numeric_text 1 [(PyInt 2, PyStr "b")] s1) ∧
  (fst (update_thread_layouts no_numeric_text 1 [(PyInt 2, PyStr "b")] s1)
     = Returned true →
   snd (update_thread_layouts no_numeric_text 1
          ([(PyInt 1, PyStr "a")] ++ [(PyInt 2, PyStr "b")]) demo_db) =
     snd (update_thread_layouts no_numeric_text 1 [(PyInt 2, PyStr "b")] s1)).
Proof.
  exact (conj eq_refl
           (update_thread_layouts_app no_numeric_text 1
              [(PyInt 1, PyStr "a")] [(PyInt 2, PyStr "b")] demo_db eq_refl)).
Defined.

Lemma relayout_ext f g s :
  (∀ r, r ∈ messages s → f r = g r) → relayout f s = relayout g s.
Proof.
  intros Hfg. unfold relayout. f_equal. apply list_fmap_ext.
  intros i r Hi. rewrite Hfg; [done|]. apply list_elem_of_lookup. by exists i.
Qed.

Lemma update_each_one nt t key value k l s :
  bind_param key = Returned k →
  bind_param value = Returned l →
  update_each nt t [(key, value)] s =
    Returned (tt, relayout (λ r, if decide (names_row nt k r ∧ m_thread_id r = t)
                                 then as_text l else m_layout_data r) s).
Proof.
  intros Hk Hl. simpl. unfold tbind, bound, tlift, tret. rewrite Hl, Hk.
  by rewrite update_layout_where_relayout.
Qed.

(** X7. In a bulk update the last entry for a message wins: when the
    entries before the last have been applied and the last entry names
    the message [m], every row of the thread with the id [m] ends with
    the layout of that last entry, whatever the earlier entries wrote. *)
Theorem last_layout_entry_wins nt t before key value k l m s r :
  fst (update_thread_layouts nt t before s) = Returned true →
  bind_param key = Returned k →
  bind_param value = Returned l →
  as_integer nt k = Some m →
  r ∈ messages (snd (update_thread_layouts nt t (before ++ [(key, value)]) s)) →
  m_id r = m → m_thread_id r = t →
  m_layout_data r = as_text l.
Proof.
  unfold update_thread_layouts, get_connection, tbind, tret.
  destruct (update_each nt t before s) as [[u s1]|e] eqn:E1; [|done].
  intros _ Hk Hl Hm.
  rewrite (update_each_app nt t before [(key, value)] s u s1 E1).
  rewrite (update_each_one nt t key value k l s1 Hk Hl). cbn [snd].
  intros (r0 & -> & Hr0)%relayout_elem_of Hid Hthr. simpl in *.
  rewrite decide_True; [done|]. split; [|done].
  unfold names_row. by rewrite Hm, Hid.
Qed.

Lemma last_layout_entry_wins_witness :
  let r := MessageRow 1 1 None "A" "hi" (Some "new") 102 in
  fst (update_thread_layouts no_numeric_text 1 [(PyInt 1, PyStr "old")] demo_db)
    = Returned true ∧
  r ∈ messages (snd (update_thread_layouts no_numeric_text 1
                       ([(PyInt 1, PyStr "old")] ++ [(PyInt 1, PyStr "new")])
                       demo_db)) ∧
  m_layout_data r = as_text (Text "new").
Proof.
  cbv zeta.
  assert (Hr : MessageRow 1 1 None "A" "hi" (Some "new") 102 ∈
               messages (snd (update_thread_layouts no_numeric_text 1
                 ([(PyInt 1, PyStr "old")] ++ [(PyInt 1, PyStr "new")]) demo_db)))
    by compute_done.
  exact (conj eq_refl (conj Hr
           (last_layout_entry_wins no_numeric_text 1 [(PyInt 1, PyStr "old")]
              (PyInt 1) (PyStr "new") (Int 1) (Text "new") 1 demo_db _
              eq_refl eq_refl eq_refl eq_refl Hr eq_refl eq_refl))).
Defined.

(** X8. [update_message_layout], which takes no thread, does for a
    stored message what [update_thread_layouts] does when it is called
    for the thread of that message with the one entry: the same answer
    and the same database. *)
Theorem update_message_layout_as_bulk nt s m t layout_data r :
  consistent s →
  r ∈ messages s → m_id r = m → m_thread_id r = t →
  update_message_layout m layout_data s =
  update_thread_layouts nt t [(PyInt m, layout_data)] s.
Proof.
  intros Hs Hr Hid Hthr.
  unfold update_message_layout, update_thread_layouts, get_connection.
  unfold tbind at 3.
  destruct (bind_param layout_data) as [l|e] eqn:El.
  - rewrite (update_each_one nt t (PyInt m) layout_data (Int m) l s eq_refl El).
    unfold tbind, bound, tlift, tret. rewrite El.
    rewrite update_layout_where_relayout. f_equal.
    apply relayout_ext. intros r' Hr'.
    pose proof (messages_pk s Hs) as Hnd. unfold message_ids in Hnd.
    destruct (decide (m_id r' = m)) as [Hyes|Hno].
    + rewrite decide_True; [done|]. split; [unfold names_row; simpl; congruence|].
      assert (r' = r) as -> by (eapply (unique_key m_id); eauto; congruence).
      done.
    + rewrite decide_False; [done|]. intros [Hn _].
      unfold names_row in Hn. simpl in Hn. congruence.
  - simpl. unfold tbind, bound, tlift. by rewrite El.
Qed.

Lemma update_message_layout_as_bulk_witness :
  consistent demo_db ∧ demo_leaf ∈ messages demo_db ∧
  update_message_layout 4 (PyStr "x") demo_db =
  update_thread_layouts no_numeric_text 1 [(PyInt 4, PyStr "x")] demo_db.
Proof.
  assert (Hr : demo_leaf ∈ messages demo_db) by compute_done.
  exact (conj demo_consistent (conj Hr
           (update_message_layout_as_bulk no_numeric_text demo_db 4 1
              (PyStr "x") demo_leaf demo_consistent Hr eq_refl eq_refl))).
Defined.

(** X9. [clear_thread_layouts t] undoes every bulk update of the thread
    [t]: after a call of [update_thread_layouts t], whatever its entries
    and whether it returned or raised, clearing leaves the database
    that clearing would have left without that call. *)
Theorem clear_undoes_updates nt t layouts s :
  snd (clear_thread_layouts t (snd (update_thread_layouts nt t layouts s))) =
  snd (clear_thread_layouts t s).
Proof.
  destruct (update_thread_layouts_relayout nt t layouts s) as (f & -> & Hf).
  rewrite !clear_thread_layouts_relayout. cbn [snd].
  rewrite relayout_relayout. apply relayout_ext. intros r _. simpl.
  destruct (decide (m_thread_id r = t)); [done|]. by apply Hf.
Qed.

(** ** Creating and reading back *)

(** X10. In a database that satisfies its schema, [create_thread] with
    a title the column can hold returns the new id and the title,
    appends one thread with the stored text of the title and the
    instant of the call under an id no thread has, and leaves the
    messages alone; [get_thread_with_messages] of the new id then
    returns that thread with no messages. *)
Theorem create_thread_round_trip s title v text now :
  consistent s →
  bind_param title = Returned v →
  as_text v = Some text →
  let k := seq_threads s + 1 in
  let s' := Db (threads s ++ [ThreadRow k text now]) (messages s)
               k (seq_messages s) in
  create_thread title now s =
    (Returned (PyDict [("id", PyInt k); ("title", title)]), s') ∧
  (k ∉ thread_ids s) ∧
  get_thread_with_messages k s' =
    (Returned (Some (ThreadView k text now [])), s').
Proof.
  intros Hs Hv Ht. cbv zeta. split; [|split].
  - unfold create_thread, get_connection, tbind, bound, tlift, tret, insert_thread.
    by rewrite Hv, Ht.
  - intros Hin. pose proof (threads_seq s Hs _ Hin). lia.
  - assert (Hfresh : ∀ row, row ∈ threads s → ¬ t_id row = seq_threads s + 1).
    { intros row Hrow Heq.
      assert (t_id row ≤ seq_threads s); [|lia].
      apply (threads_seq s Hs). unfold thread_ids. by apply list_elem_of_fmap_2. }
    unfold get_thread_with_messages, get_connection.
    cbn [threads messages].
    rewrite filter_app, (filter_drops_all _ _ Hfresh).
    rewrite filter_cons_True by done. rewrite filter_nil. cbn [app t_id t_title t_created_at].
    rewrite filter_drops_all; [done|].
    intros r Hr Heq.
    pose proof (thread_fk s Hs r Hr) as Hfk. rewrite Heq in Hfk.
    pose proof (threads_seq s Hs _ Hfk). lia.
Qed.

Lemma create_thread_round_trip_witness :
  consistent demo_db ∧
  create_thread (PyStr "New") 107 demo_db =
    (Returned (PyDict [("id", PyInt 3); ("title", PyStr "New")]),
     Db (threads demo_db ++ [ThreadRow 3 "New" 107]) (messages demo_db) 3 5) ∧
  (3 ∉ thread_ids demo_db) ∧
  get_thread_with_messages 3
    (Db (threads demo_db ++ [ThreadRow 3 "New" 107]) (messages demo_db) 3 5) =
    (Returned (Some (ThreadView 3 "New" 107 [])),
     Db (threads demo_db ++ [ThreadRow 3 "New" 107]) (messages demo_db) 3 5).
Proof.
  exact (conj demo_consistent
           (create_thread_round_trip demo_db (PyStr "New") (Text "New") "New" 107
              demo_consistent eq_refl eq_refl)).
Defined.

Lemma create_message_Returned nt s t parent writer_name content wv cv w c now :
  t ∈ thread_ids s →
  (∀ q, parent = Some q → q ∈ message_ids s) →
  bind_param writer_name = Returned wv → as_text wv = Some w →
  bind_param content = Returned cv → as_text cv = Some c →
  create_message nt (PyInt t) (parent_arg parent) writer_name content now s =
    (Returned (PyDict [("id", PyInt (seq_messages s + 1)); ("thread_id", PyInt t);
                       ("parent_id", parent_arg parent);
                       ("writer_name", writer_name); ("content", content)]),
     Db (threads s)
        (messages s ++ [MessageRow (seq_messages s + 1) t parent w c None now])
        (seq_threads s) (seq_messages s + 1)).
Proof.
  intros Ht Hp Hwv Hw Hcv Hc.
  unfold create_message, get_connection, tbind, bound, tlift, tret.
  rewrite Hwv, Hcv. cbn [bind_param].
  assert (Hpar : bind_param (parent_arg parent) =
                 Returned (match parent with Some q => Int q | None => Null end))
    by (by destruct parent).
  rewrite Hpar.
  unfold insert_message, not_null, thread_key. rewrite Hw, Hc.
  cbn [as_integer]. rewrite decide_True by done.
  destruct parent as [q|]; [|done].
  unfold parent_key. cbn [as_integer].
  rewrite decide_True; [done|]. left. by apply Hp.
Qed.

(** X11. In a database that satisfies its schema, [create_message] for a
    stored thread, with no parent or a stored one and with texts the
    columns can hold, returns normally with the new id, and
    [get_thread_with_messages] of the thread then lists the new message
    with these values and without [layout_data], beside every message
    it listed before. *)
Theorem create_message_round_trip nt s t parent writer_name content wv cv w c now :
  consistent s →
  t ∈ thread_ids s →
  (∀ q, parent = Some q → q ∈ message_ids s) →
  bind_param writer_name = Returned wv → as_text wv = Some w →
  bind_param content = Returned cv → as_text cv = Some c →
  let call := create_message nt (PyInt t) (parent_arg parent)
                writer_name content now s in
  let row := MessageRow (seq_messages s + 1) t parent w c None now in
  (∃ res, fst call = Returned res ∧
          Py.getitem res "id" = Returned (PyInt (seq_messages s + 1))) ∧
  (m_id row ∉ message_ids s) ∧
  ∃ v, get_thread_with_messages t (snd call) = (Returned (Some v), snd call) ∧
       tv_messages v ≡ₚ in_thread t s ++ [row].
Proof.
  intros Hs Ht Hp Hwv Hw Hcv Hc. cbv zeta.
  rewrite (create_message_Returned nt s t parent writer_name content
             wv cv w c now Ht Hp Hwv Hw Hcv Hc).
  cbn [fst snd]. split; [by eexists|]. split.
  - cbn [m_id]. intros Hin. pose proof (messages_seq s Hs _ Hin). lia.
  - match goal with |- context [get_thread_with_messages t ?s1] =>
      destruct (get_thread_with_messages_stored t s1 Ht) as (v & Hget & _ & Hv)
    end.
    exists v. split; [exact Hget|]. rewrite Hv, merge_sort_Permutation.
    unfold in_thread. cbn [messages]. rewrite filter_app.
    by rewrite filter_cons_True.
Qed.

Lemma create_message_round_trip_witness :
  consistent demo_db ∧ 2 ∈ thread_ids demo_db ∧
  let call := create_message no_numeric_text (PyInt 2) (parent_arg (Some 5))
                (PyStr "D") (PyStr "more") 107 demo_db in
  let row := MessageRow 6 2 (Some 5) "D" "more" None 107 in
  (∃ res, fst call = Returned res ∧
          Py.getitem res "id" = Returned (PyInt 6)) ∧
  (m_id row ∉ message_ids demo_db) ∧
  ∃ v, get_thread_with_messages 2 (snd call) = (Returned (Some v), snd call) ∧
       tv_messages v ≡ₚ in_thread 2 demo_db ++ [row].
Proof.
  assert (Ht : 2 ∈ thread_ids demo_db) by compute_done.
  assert (Hp : ∀ q, Some 5 = Some q → q ∈ message_ids demo_db).
  { intros q [= <-]. compute_done. }
  exact (conj demo_consistent (conj Ht
           (create_message_round_trip no_numeric_text demo_db 2 (Some 5)
              (PyStr "D") (PyStr "more") (Text "D") (Text "more") "D" "more" 107
              demo_consistent Ht Hp eq_refl eq_refl eq_refl eq_refl))).
Defined.

(** X12. [create_message] with a [parent_id] that is the id of no
    stored message, and not the id the new message is about to get,
    fails on the foreign key of [parent_id] and writes nothing, also
    when the thread is stored and the texts are fine. *)
Theorem create_message_needs_parent nt s t q writer_name content wv cv w c now :
  t ∈ thread_ids s →
  q ∉ message_ids s → q ≠ seq_messages s + 1 →
  bind_param writer_name = Returned wv → as_text wv = Some w →
  bind_param content = Returned cv → as_text cv = Some c →
  create_message nt (PyInt t) (PyInt q) writer_name content now s =
    (Raised (IntegrityError ForeignKey), s).
Proof.
  intros Ht Hq Hself Hwv Hw Hcv Hc.
  unfold create_message, get_connection, tbind, bound, tlift, tret.
  rewrite Hwv, Hcv. cbn [bind_param].
  unfold insert_message, not_null, thread_key, parent_key. rewrite Hw, Hc.
  cbn [as_integer]. rewrite decide_True by done.
  rewrite decide_False; [done|]. intros [?|?]; done.
Qed.

Lemma create_message_needs_parent_witness :
  1 ∈ thread_ids demo_db ∧ (9 ∉ message_ids demo_db) ∧
  create_message no_numeric_text (PyInt 1) (PyInt 9) (PyStr "A") (PyStr "hi")
    107 demo_db = (Raised (IntegrityError ForeignKey), demo_db).
Proof.
  assert (Ht : 1 ∈ thread_ids demo_db) by compute_done.
  assert (Hq : 9 ∉ message_ids demo_db) by compute_done.
  assert (Hself : 9 ≠ seq_messages demo_db + 1) by compute_done.
  exact (conj Ht (conj Hq
           (create_message_needs_parent no_numeric_text demo_db 1 9
              (PyStr "A") (PyStr "hi") (Text "A") (Text "hi") "A" "hi" 107
              Ht Hq Hself eq_refl eq_refl eq_refl eq_refl))).
Defined.

(** ** What a call can do to the database *)

(** A call of a writing function leaves the database as it was, appends
    one thread under the next key, appends one message under the next
    key, keeps part of the rows, or rewrites [layout_data]. *)
Lemma step_shape nt s s' :
  step nt s s' →
  s' = s ∨
  (∃ text now,
     s' = Db (threads s ++ [ThreadRow (seq_threads s + 1) text now])
             (messages s) (seq_threads s + 1) (seq_messages s)) ∨
  (∃ t p w c now,
     t ∈ thread_ids s ∧
     (∀ k, p = Some k → k ∈ message_ids s ∨ k = seq_messages s + 1) ∧
     s' = Db (threads s)
             (messages s ++ [MessageRow (seq_messages s + 1) t p w c None now])
             (seq_threads s) (seq_messages s + 1)) ∨
  (∃ kept rows,
     kept `sublist_of` threads s ∧ rows `sublist_of` messages s ∧
     s' = Db kept rows (seq_threads s) (seq_messages s)) ∨
  (∃ f, s' = relayout f s).
Proof.
  destruct 1.
  - unfold create_thread, get_connection, tbind, bound, tlift, tret, insert_thread.
    destruct (bind_param title) as [v|]; [|by left].
    destruct (as_text v) as [text|]; [|by left].
    right. left. by exists text, now.
  - do 3 right. left. rewrite delete_thread_eq. cbn [snd]. eexists _, _.
    split; [|split; [|reflexivity]];
      [apply sublist_filter|apply delete_rows_sublist].
  - destruct (create_message_cases nt thread_id parent_id writer_name content now s)
      as [[_ ->]|(tv & pv & wv & cv & rowid & _ & _ & _ & _ & _ & H)]; [by left|].
    apply insert_message_Returned in H
      as (t & p & w & c & _ & Ht & Hp & _ & _ & -> & ->).
    do 2 right. left. by exists t, p, w, c, now.
  - do 3 right. left. rewrite delete_message_eq. cbn [snd]. eexists _, _.
    split; [|split; [|reflexivity]]; [done|apply delete_rows_sublist].
  - destruct (update_message_layout_cases message_id layout_data s)
      as [[e ->]|[f ->]]; [by left|]. do 4 right. by exists f.
  - destruct (update_thread_layouts_cases nt thread_id layouts s)
      as [[e ->]|(f & -> & _)]; [by left|]. do 4 right. by exists f.
  - rewrite clear_thread_layouts_relayout. do 4 right. by eexists.
Qed.

Lemma step_counters nt s s' :
  step nt s s' →
  seq_threads s ≤ seq_threads s' ∧ seq_messages s ≤ seq_messages s'.
Proof.
  intros [->|[(text & now & ->)|[(t & p & w & c & now & _ & _ & ->)|
          [(kept & rows & _ & _ & ->)|[f ->]]]]]%step_shape; simpl; lia.
Qed.

Lemma steps_counters nt s s' :
  rtc (step nt) s s' →
  consistent s →
  consistent s' ∧
  seq_threads s ≤ seq_threads s' ∧ seq_messages s ≤ seq_messages s'.
Proof.
  induction 1 as [s|s s1 s2 Hstep _ IH]; intros Hs; [split; [done|lia]|].
  destruct (IH (consistent_step nt s s1 Hstep Hs)) as (Hs2 & Ht & Hm).
  destruct (step_counters nt s s1 Hstep). split; [done|]. lia.
Qed.

(** X13. Keys are not used twice. Whatever calls are made on a database
    that satisfies its schema, deletes among them, the id that a later
    [create_thread] returns is the id of no thread the database held
    before those calls, and the id that a later [create_message] returns
    is the id of no message it held. *)
Theorem ids_are_not_reused nt s s' :
  consistent s →
  rtc (step nt) s s' →
  (∀ title now res k,
     fst (create_thread title now s') = Returned res →
     Py.getitem res "id" = Returned (PyInt k) →
     k ∉ thread_ids s) ∧
  (∀ thread_id parent_id writer_name content now res k,
     fst (create_message nt thread_id parent_id writer_name content now s')
       = Returned res →
     Py.getitem res "id" = Returned (PyInt k) →
     k ∉ message_ids s).
Proof.
  intros Hs Hsteps.
  destruct (steps_counters nt s s' Hsteps Hs) as (_ & Ht & Hm). split.
  - intros title now res k.
    unfold create_thread, get_connection, tbind, bound, tlift, tret, insert_thread.
    destruct (bind_param title) as [v|]; [|done].
    destruct (as_text v) as [text|]; [|done].
    cbn [fst]. intros [= <-]. cbn. intros [= <-] Hin.
    pose proof (threads_seq s Hs _ Hin). lia.
  - intros thread_id parent_id writer_name content now res k.
    unfold create_message, get_connection, tbind, bound, tlift, tret.
    destruct (bind_param thread_id) as [tv|]; [|done].
    destruct (bind_param parent_id) as [pv|]; [|done].
    destruct (bind_param writer_name) as [wv|]; [|done].
    destruct (bind_param content) as [cv|]; [|done].
    destruct (insert_message nt tv pv wv cv now s') as [[rowid s'']|] eqn:E;
      [|done].
    apply insert_message_Returned in E as (_ & _ & _ & _ & _ & _ & _ & _ & _ & -> & _).
    cbn [fst]. intros [= <-]. cbn. intros [= <-] Hin.
    pose proof (messages_seq s Hs _ Hin). lia.
Qed.

Lemma ids_are_not_reused_witness :
  consistent demo_db ∧
  rtc (step no_numeric_text) demo_db (snd (delete_thread 2 demo_db)) ∧
  (∀ title now res k,
     fst (create_thread title now (snd (delete_thread 2 demo_db))) = Returned res →
     Py.getitem res "id" = Returned (PyInt k) →
     k ∉ thread_ids demo_db) ∧
  (∀ thread_id parent_id writer_name content now res k,
     fst (create_message no_numeric_text thread_id parent_id writer_name content
            now (snd (delete_thread 2 demo_db))) = Returned res →
     Py.getitem res "id" = Returned (PyInt k) →
     k ∉ message_ids demo_db).
Proof.
  assert (Hsteps : rtc (step no_numeric_text) demo_db
                     (snd (delete_thread 2 demo_db))).
  { apply rtc_once. apply step_delete_thread. }
  exact (conj demo_consistent (conj Hsteps
           (ids_are_not_reused no_numeric_text demo_db _
              demo_consistent Hsteps))).
Defined.

(** ** Keys grow *)

Lemma sublist_rows_elem_of {A} (l k : list A) x :
  l `sublist_of` k → x ∈ l → x ∈ k.
Proof. intros Hsub Hx. by eapply elem_of_sublist. Qed.

Lemma step_keeps_order nt s s' :
  step nt s s' →
  consistent s →
  0 ≤ seq_threads s ∧ 0 ≤ seq_messages s ∧ keys_positive s ∧ parents_older s →
  0 ≤ seq_threads s' ∧ 0 ≤ seq_messages s' ∧ keys_positive s' ∧ parents_older s'.
Proof.
  intros Hstep Hs (H0t & H0m & [Hpt Hpm] & Hold).
  apply step_shape in Hstep
    as [->|[(text & now & ->)|[(t & p & w & c & now & Ht & Hp & ->)|
        [(kept & rows & Hkept & Hrows & ->)|[f ->]]]]].
  - done.
  - simpl. repeat split; try lia; try done.
    intros k. unfold thread_ids. simpl. rewrite fmap_app.
    intros [Hk|Hk%list_elem_of_singleton]%elem_of_app; [by apply Hpt|simpl in Hk; lia].
  - simpl. repeat split; try lia; try done.
    + intros k. unfold message_ids. simpl. rewrite fmap_app.
      intros [Hk|Hk%list_elem_of_singleton]%elem_of_app;
        [by apply Hpm|simpl in Hk; lia].
    + intros r q. simpl.
      intros [Hr|Hr%list_elem_of_singleton]%elem_of_app Hq; [by eapply Hold|].
      subst r. simpl in *. destruct (Hp q Hq) as [Hin| ->]; [|lia].
      pose proof (messages_seq s Hs _ Hin). lia.
  - simpl. repeat split; try done.
    + intros k (row & -> & Hrow)%list_elem_of_fmap. apply Hpt.
      unfold thread_ids. apply list_elem_of_fmap_2.
      by eapply sublist_rows_elem_of.
    + intros k (row & -> & Hrow)%list_elem_of_fmap. apply Hpm.
      unfold message_ids. apply list_elem_of_fmap_2.
      by eapply sublist_rows_elem_of.
    + intros r q Hr Hq. simpl in Hr. eapply Hold; [|done].
      by eapply sublist_rows_elem_of.
  - repeat split; try done.
    + intros k. rewrite relayout_ids. apply Hpm.
    + intros r' q (r & -> & Hr)%relayout_elem_of Hq. simpl in *. by eapply Hold.
Qed.

Lemma descends_key rows m r :
  (∀ r p, r ∈ rows → m_parent_id r = Some p → p ≤ m_id r) →
  descends rows m r → m ≤ m_id r.
Proof.
  intros Hold. induction 1 as [r Hr Hid|r above _ IH Hr Hp]; [lia|].
  pose proof (Hold r _ Hr Hp). lia.
Qed.

(** X14. In every state of the store every id is at least 1 and no
    message has a parent with a greater id than its own; so the
    messages below a message have ids that are at least its id, and
    [parent_id] never leads from a message through other messages back
    to it. *)
Theorem keys_grow_along_parents nt s :
  reachable nt s →
  keys_positive s ∧ parents_older s ∧
  (∀ m r, descends (messages s) m r → m ≤ m_id r) ∧
  (∀ r above, r ∈ messages s → m_parent_id r = Some (m_id above) →
              descends (messages s) (m_id r) above → m_id above = m_id r).
Proof.
  intros Hreach.
  assert (H : 0 ≤ seq_threads s ∧ 0 ≤ seq_messages s ∧
              keys_positive s ∧ parents_older s).
  { induction Hreach as [|s s' Hreach IH Hstep].
    - unfold keys_positive, parents_older, init_db, thread_ids, message_ids.
      simpl. repeat split; try done; intros *; rewrite elem_of_nil; tauto.
    - eapply step_keeps_order; [done| |done]. by eapply reachable_consistent. }
  destruct H as (_ & _ & Hpos & Hold).
  split; [done|]. split; [done|]. split.
  - intros m r. by apply descends_key.
  - intros r above Hr Hp Hdesc.
    pose proof (Hold r _ Hr Hp). pose proof (descends_key _ _ _ Hold Hdesc). lia.
Qed.

Lemma keys_grow_along_parents_witness :
  reachable no_numeric_text demo_db ∧
  keys_positive demo_db ∧ parents_older demo_db ∧
  (∀ m r, descends (messages demo_db) m r → m ≤ m_id r) ∧
  (∀ r above, r ∈ messages demo_db → m_parent_id r = Some (m_id above) →
              descends (messages demo_db) (m_id r) above →
              m_id above = m_id r).
Proof.
  exact (conj demo_reachable
           (keys_grow_along_parents no_numeric_text demo_db demo_reachable)).
Defined.

(** ** Message counts *)

Lemma sum_list_with_plus {A} (f g : A → nat) (l : list A) :
  sum_list_with (λ x, f x + g x)%nat l =
  (sum_list_with f l + sum_list_with g l)%nat.
Proof. induction l as [|a l IH]; simpl; lia. Qed.

Lemma sum_list_with_ext {A} (f g : A → nat) (l : list A) :
  (∀ x, f x = g x) → sum_list_with f l = sum_list_with g l.
Proof. intros Hfg. induction l as [|a l IH]; simpl; [done|]. by rewrite Hfg, IH. Qed.

Lemma one_thread_per_key (x : Z) (rows : list thread_row) :
  NoDup (t_id <$> rows) →
  sum_list_with (λ t, if decide (x = t_id t) then 1%nat else 0%nat) rows =
  if decide (x ∈ t_id <$> rows) then 1%nat else 0%nat.
Proof.
  induction rows as [|t rows IH]; intros Hnd.
  { rewrite decide_False by apply not_elem_of_nil. done. }
  rewrite fmap_cons in *. apply NoDup_cons in Hnd as [Hfresh Hnd].
  cbn [sum_list_with]. rewrite (IH Hnd).
  destruct (decide (x = t_id t)) as [->|Hne].
  - rewrite decide_False by done. rewrite decide_True by left. done.
  - destruct (decide (x ∈ t_id <$> rows)) as [Hin|Hout].
    + rewrite decide_True by (by right). done.
    + rewrite decide_False; [done|]. by intros [?|?]%elem_of_cons.
Qed.

Lemma counts_add_up (rows : list thread_row) (msgs : list message_row) :
  NoDup (t_id <$> rows) →
  (∀ m, m ∈ msgs → m_thread_id m ∈ t_id <$> rows) →
  sum_list_with
    (λ t, length (filter (λ m, m_thread_id m = t_id t) msgs)) rows =
  length msgs.
Proof.
  intros Hnd. induction msgs as [|m msgs IH]; intros Hfk.
  { clear Hnd Hfk. induction rows as [|t rows IHr]; [done|].
    cbn [sum_list_with]. rewrite IHr. reflexivity. }
  rewrite (sum_list_with_ext _
    (λ t, (if decide (m_thread_id m = t_id t) then 1 else 0) +
          length (filter (λ m, m_thread_id m = t_id t) msgs))%nat).
  - rewrite sum_list_with_plus, one_thread_per_key by done.
    rewrite decide_True by (apply Hfk; left).
    rewrite IH; [done|]. intros m' Hm'. apply Hfk. by right.
  - intros t. rewrite filter_cons. by destruct (decide (m_thread_id m = t_id t)).
Qed.

(** X15. In a database that satisfies its schema the message counts
    that [get_all_threads] returns add up to the number of stored
    messages: every message is counted for one thread and for one
    only. *)
Theorem message_counts_add_up s :
  consistent s →
  ∃ l, get_all_threads s = (Returned l, s) ∧
       sum_list_with ts_message_count l = length (messages s).
Proof.
  intros Hs. eexists. split; [apply get_all_threads_eq|].
  rewrite merge_sort_Permutation.
  pose proof (counts_add_up (threads s) (messages s)
                (threads_pk s Hs) (thread_fk s Hs)) as H.
  rewrite <- H. clear H.
  induction (threads s) as [|t rows IH]; [done|].
  rewrite fmap_cons. simpl. by rewrite IH.
Qed.

Lemma message_counts_add_up_witness :
  consistent demo_db ∧
  ∃ l, get_all_threads demo_db = (Returned l, demo_db) ∧
       sum_list_with ts_message_count l = length (messages demo_db).
Proof.
  exact (conj demo_consistent (message_counts_add_up demo_db demo_consistent)).
Defined.

(** * Further properties of the routes *)

Lemma truthy_with_entry field items x :
  Py.lookup_key field items = Some x → Py.truthy (PyDict items) = true.
Proof. by destruct items. Qed.

(** X16. PUT /api/threads/<id>/layouts answers 400 and writes nothing
    when the body is absent or empty or has no [layouts] entry; when
    [layouts] is there but is no object (null, a number, a string, a
    list), the store function raises on [layouts.items()] and nothing
    is written. *)
Theorem update_layouts_rejects nt t data s :
  (lacks "layouts" data →
     app.update_layouts nt t data s =
       (Returned (app.error "layouts object is required"), s)) ∧
  (∀ items layouts,
     data = PyDict items →
     Py.lookup_key "layouts" items = Some layouts →
     (∀ entries, layouts ≠ PyDict entries) →
     app.update_layouts nt t data s = (Raised AttributeError, s)).
Proof.
  split.
  - intros [Hfalsy|(items & -> & Hnone)]; unfold app.update_layouts.
    + by rewrite Hfalsy.
    + destruct (Py.truthy (PyDict items)); [|done]. simpl. by rewrite Hnone.
  - intros items layouts -> Hsome Hno. unfold app.update_layouts.
    rewrite (truthy_with_entry _ _ _ Hsome). simpl. rewrite Hsome.
    destruct layouts as [| | | | |entries]; try done. by destruct (Hno entries).
Qed.

Lemma update_layouts_rejects_witness :
  lacks "layouts" (PyDict [("layout", PyDict [])]) ∧
  app.update_layouts no_numeric_text 1 (PyDict [("layout", PyDict [])]) demo_db =
    (Returned (app.error "layouts object is required"), demo_db) ∧
  app.update_layouts no_numeric_text 1
    (PyDict [("layouts", PyList [PyStr "x"])]) demo_db =
    (Raised AttributeError, demo_db).
Proof.
  assert (H1 : lacks "layouts" (PyDict [("layout", PyDict [])])).
  { right. by eexists. }
  assert (H2 : ∀ entries, PyList [PyStr "x"] ≠ PyDict entries) by done.
  exact (conj H1 (conj
    (proj1 (update_layouts_rejects no_numeric_text 1 _ demo_db) H1)
    (proj2 (update_layouts_rejects no_numeric_text 1 _ demo_db)
       [("layouts", PyList [PyStr "x"])] (PyList [PyStr "x"])
       eq_refl eq_refl H2))).
Defined.

Lemma update_layouts_object nt t items entries s :
  Py.lookup_key "layouts" items = Some (PyDict entries) →
  app.update_layouts nt t (PyDict items) s =
    match update_thread_layouts nt t ((λ kv, (PyStr kv.1, kv.2)) <$> entries) s with
    | (Returned _, s') => (Returned app.success, s')
    | (Raised e, s') => (Raised e, s')
    end.
Proof.
  intros H. unfold app.update_layouts.
  rewrite (truthy_with_entry _ _ _ H). cbn [negb Py.contains Py.getitem].
  rewrite H. done.
Qed.

Lemma update_thread_layouts_one nt t key value k l s :
  bind_param key = Returned k →
  bind_param value = Returned l →
  update_thread_layouts nt t [(key, value)] s =
    (Returned true,
     relayout (λ r, if decide (names_row nt k r ∧ m_thread_id r = t)
                    then as_text l else m_layout_data r) s).
Proof.
  intros Hk Hl. unfold update_thread_layouts, get_connection, tbind at 1.
  by rewrite (update_each_one nt t key value k l s Hk Hl).
Qed.

(** X17. The keys of the [layouts] object of a PUT request are strings,
    and the route matches them with the ids as the engine reads
    numbers in text. A key that is no number is passed over: the answer
    is success and nothing is written. A key that reads as the number
    [m] writes the layout to the message [m] of the thread, and to no
    other row. *)
Theorem update_layouts_reads_keys nt t key b s :
  let data := PyDict [("layouts", PyDict [(key, PyStr b)])] in
  (nt key = None →
     app.update_layouts nt t data s = (Returned app.success, s)) ∧
  (∀ m, nt key = Some m →
     app.update_layouts nt t data s =
       (Returned app.success,
        relayout (λ r, if decide (m_id r = m ∧ m_thread_id r = t) then Some b
                       else m_layout_data r) s)).
Proof.
  cbv zeta.
  rewrite (update_layouts_object nt t
             [("layouts", PyDict [(key, PyStr b)])] [(key, PyStr b)] s eq_refl).
  cbn [fmap list_fmap fst snd].
  rewrite (update_thread_layouts_one nt t (PyStr key) (PyStr b)
             (Text key) (Text b) s eq_refl eq_refl).
  split.
  - intros Hnone. rewrite relayout_unchanged; [done|].
    intros r _. rewrite decide_False; [done|].
    unfold names_row. simpl. rewrite Hnone. by intros [? _].
  - intros m Hm. f_equal. apply relayout_ext. intros r _. simpl.
    destruct (decide (names_row nt (Text key) r ∧ m_thread_id r = t))
      as [[Hid Ht]|Hno];
      destruct (decide (m_id r = m ∧ m_thread_id r = t)) as [[Hid' Ht']|Hno'];
      try done.
    + destruct Hno'. unfold names_row in Hid. simpl in Hid.
      split; [congruence|done].
    + destruct Hno. split; [|done]. unfold names_row. simpl. congruence.
Qed.

Lemma update_layouts_reads_keys_witness :
  (reads_four "first" = None ∧ reads_four "4" = Some 4) ∧
  app.update_layouts reads_four 1
    (PyDict [("layouts", PyDict [("first", PyStr "x")])]) demo_db =
    (Returned app.success, demo_db) ∧
  app.update_layouts reads_four 1
    (PyDict [("layouts", PyDict [("4", PyStr "x")])]) demo_db =
    (Returned app.success,
     relayout (λ r, if decide (m_id r = 4 ∧ m_thread_id r = 1) then Some "x"
                    else m_layout_data r) demo_db).
Proof.
  exact (conj (conj eq_refl eq_refl) (conj
    (proj1 (update_layouts_reads_keys reads_four 1 "first" "x" demo_db) eq_refl)
    (proj2 (update_layouts_reads_keys reads_four 1 "4" "x" demo_db) 4 eq_refl))).
Defined.

Lemma create_thread_Raised title now s e :
  fst (create_thread title now s) = Raised e → snd (create_thread title now s) = s.
Proof.
  unfold create_thread, get_connection, tbind, bound, tlift, tret, insert_thread.
  destruct (bind_param title) as [v|]; [|done].
  by destruct (as_text v).
Qed.

(** X18. The two creating routes write only when they answer 201. A
    request answered with 400, and a request on which the route raises
    (a body that is no object, a null title, an unknown thread), leaves
    the database as it was. *)
Theorem create_routes_write_on_201_only nt data now s :
  (status_of (fst (app.create_thread data now s)) ≠ Some 201%nat →
     snd (app.create_thread data now s) = s) ∧
  (status_of (fst (app.create_message nt data now s)) ≠ Some 201%nat →
     snd (app.create_message nt data now s) = s).
Proof.
  split.
  - unfold app.create_thread.
    destruct (negb (Py.truthy data)); [done|].
    destruct (Py.contains "title" data) as [[|]|]; [|done..].
    destruct (Py.getitem data "title") as [title|]; [|done].
    pose proof (create_thread_Raised title now s) as Hraised.
    destruct (create_thread title now s) as [[thread|e] s']; [done|].
    intros _. by eapply Hraised.
  - unfold app.create_message.
    destruct (negb (Py.truthy data)); [done|].
    destruct (app.first_missing app.required data) as [[field|]|]; [done| |done].
    destruct (Py.getitem data "thread_id") as [thread_id|]; [|done].
    destruct (Py.get data "parent_id") as [parent_id|]; [|done].
    destruct (Py.getitem data "writer_name") as [writer_name|]; [|done].
    destruct (Py.getitem data "content") as [content|]; [|done].
    destruct (create_message_cases nt thread_id parent_id writer_name content now s)
      as [[Hr Hs]|(tv & pv & wv & cv & rowid & _ & _ & _ & _ & Hr & _)].
    + destruct (create_message nt thread_id parent_id writer_name content now s)
        as [[message|e] s']; [done|]. intros _. exact Hs.
    + destruct (create_message nt thread_id parent_id writer_name content now s)
        as [[message|e] s']; [|done]. simpl. done.
Qed.

Lemma create_routes_write_on_201_only_witness :
  status_of (fst (app.create_thread (PyDict [("title", PyNone)]) 107 demo_db))
    ≠ Some 201%nat ∧
  status_of (fst (app.create_message no_numeric_text
                    (PyDict [("thread_id", PyInt 9); ("writer_name", PyStr "A");
                             ("content", PyStr "hi")]) 107 demo_db))
    ≠ Some 201%nat ∧
  snd (app.create_thread (PyDict [("title", PyNone)]) 107 demo_db) = demo_db ∧
  snd (app.create_message no_numeric_text
         (PyDict [("thread_id", PyInt 9); ("writer_name", PyStr "A");
                  ("content", PyStr "hi")]) 107 demo_db) = demo_db.
Proof.
  assert (H1 : status_of (fst (app.create_thread (PyDict [("title", PyNone)])
                                 107 demo_db)) ≠ Some 201%nat) by done.
  assert (H2 : status_of (fst (app.create_message no_numeric_text
                    (PyDict [("thread_id", PyInt 9); ("writer_name", PyStr "A");
                             ("content", PyStr "hi")]) 107 demo_db))
               ≠ Some 201%nat) by done.
  exact (conj H1 (conj H2 (conj
    (proj1 (create_routes_write_on_201_only no_numeric_text _ 107 demo_db) H1)
    (proj2 (create_routes_write_on_201_only no_numeric_text _ 107 demo_db) H2)))).
Defined.

Lemma lookup_key_snoc_ne k k' v items :
  k ≠ k' → Py.lookup_key k (items ++ [(k', v)]) = Py.lookup_key k items.
Proof.
  intros Hne. induction items as [|[k0 v0] items IH]; simpl.
  - by rewrite (proj2 (String.eqb_neq k k') Hne).
  - by destruct (String.eqb k k0).
Qed.

Lemma lookup_key_snoc_new k v items :
  Py.lookup_key k items = None → Py.lookup_key k (items ++ [(k, v)]) = Some v.
Proof.
  induction items as [|[k0 v0] items IH]; simpl.
  - by rewrite String.eqb_refl.
  - by destruct (String.eqb k k0).
Qed.

(** X19. POST /api/messages reads [parent_id] with a default: a request
    object without a [parent_id] entry is answered, and changes the
    database, as the same object with [parent_id] null. *)
Theorem absent_parent_is_null nt items now s :
  Py.truthy (PyDict items) = true →
  Py.lookup_key "parent_id" items = None →
  app.create_message nt (PyDict items) now s =
  app.create_message nt (PyDict (items ++ [("parent_id", PyNone)])) now s.
Proof.
  intros Htrue Hnone. unfold app.create_message.
  assert (Htrue' : Py.truthy (PyDict (items ++ [("parent_id", PyNone)])) = true)
    by (by destruct items).
  rewrite Htrue, Htrue'.
  cbn [negb app.first_missing app.required Py.contains Py.getitem Py.get].
  rewrite !lookup_key_snoc_ne by done.
  rewrite (lookup_key_snoc_new _ PyNone _ Hnone), Hnone. done.
Qed.

Lemma absent_parent_is_null_witness :
  app.create_message no_numeric_text
    (PyDict [("thread_id", PyInt 1); ("writer_name", PyStr "A");
             ("content", PyStr "hi")]) 107 demo_db =
  app.create_message no_numeric_text
    (PyDict ([("thread_id", PyInt 1); ("writer_name", PyStr "A");
              ("content", PyStr "hi")] ++ [("parent_id", PyNone)])) 107 demo_db.
Proof.
  exact (absent_parent_is_null no_numeric_text
           [("thread_id", PyInt 1); ("writer_name", PyStr "A");
            ("content", PyStr "hi")] 107 demo_db eq_refl eq_refl).
Defined.

(** * The sample loader *)

(** ** The order of the messages *)

Lemma insert_by_id_perm m l : insert_by_id m l ≡ₚ m :: l.
Proof.
  induction l as [|x l IH]; simpl; [done|].
  destruct (decide (sm_id m ≤ sm_id x)); [done|].
  rewrite IH. apply Permutation_swap.
Qed.

Lemma sorted_by_id_perm l : sorted_by_id l ≡ₚ l.
Proof.
  induction l as [|m l IH]; [done|].
  unfold sorted_by_id in *. simpl. by rewrite insert_by_id_perm, IH.
Qed.

Lemma insert_by_id_sorted m l :
  StronglySorted by_id l → StronglySorted by_id (insert_by_id m l).
Proof.
  induction 1 as [|x l Hl IH Hx]; simpl.
  { repeat constructor. }
  destruct (decide (sm_id m ≤ sm_id x)) as [Hle|Hgt].
  - constructor; [by constructor|]. constructor; [done|].
    eapply Forall_impl; [exact Hx|]. unfold by_id. intros y Hy. lia.
  - constructor; [done|]. apply Forall_forall. intros y Hy.
    rewrite insert_by_id_perm in Hy. apply elem_of_cons in Hy as [->|Hy].
    + unfold by_id. lia.
    + by eapply Forall_forall in Hx.
Qed.

Lemma sorted_by_id_sorted l : StronglySorted by_id (sorted_by_id l).
Proof.
  induction l as [|m l IH]; [constructor|].
  unfold sorted_by_id in *. simpl. by apply insert_by_id_sorted.
Qed.

(** ** The loop *)

Lemma stored_text_Some v text :
  stored_text v = Some text →
  ∃ x, bind_param v = Returned x ∧ as_text x = Some text.
Proof.
  unfold stored_text. destruct (bind_param v) as [x|]; [|done]. by exists x.
Qed.

Lemma create_thread_Returned s title v text now :
  bind_param title = Returned v →
  as_text v = Some text →
  create_thread title now s =
    (Returned (PyDict [("id", PyInt (seq_threads s + 1)); ("title", title)]),
     Db (threads s ++ [ThreadRow (seq_threads s + 1) text now]) (messages s)
        (seq_threads s + 1) (seq_messages s)).
Proof.
  intros Hv Ht.
  unfold create_thread, get_connection, tbind, bound, tlift, tret, insert_thread.
  by rewrite Hv, Ht.
Qed.

Lemma loop_parent (seen : gmap Z Z) (parent : option Z) :
  match parent with
  | None => PyNone
  | Some p => default PyNone ((PyInt <$> seen) !! p)
  end = parent_arg (parent ≫= λ p, seen !! p).
Proof.
  destruct parent as [p|]; [|done]. simpl. rewrite lookup_fmap.
  by destruct (seen !! p).
Qed.

(** The loop, run on messages whose texts can be stored, in a database
    that holds the thread and every message [id_map] points to. *)
Lemma load_messages_loads nt thread clock msgs :
  Forall storable msgs →
  ∀ (seen : gmap Z Z) tick s,
    consistent s →
    thread ∈ thread_ids s →
    (∀ p q, seen !! p = Some q → q ∈ message_ids s) →
    ∃ s',
      load_messages nt (PyInt thread) (PyInt <$> seen) msgs clock tick s =
        (Returned tt, s') ∧
      consistent s' ∧
      threads s' = threads s ∧
      messages s' =
        (messages s ++
         loaded_rows thread seen msgs clock tick (seq_messages s + 1))%list.
Proof.
  induction 1 as [|msg rest [[w Hw] [c Hc]] _ IH]; intros seen tick s Hs Ht Hseen.
  { exists s. simpl. by rewrite app_nil_r. }
  apply stored_text_Some in Hw as Hw'. destruct Hw' as (wv & Hwv & Hwt).
  apply stored_text_Some in Hc as Hc'. destruct Hc' as (cv & Hcv & Hct).
  cbn [load_messages loaded_rows]. rewrite loop_parent.
  set (parent := sm_parent_id msg ≫= λ p, seen !! p).
  assert (Hparent : ∀ q, parent = Some q → q ∈ message_ids s).
  { unfold parent. intros q Hq. destruct (sm_parent_id msg) as [p|]; [|done].
    simpl in Hq. by eapply Hseen. }
  pose proof (consistent_create_message nt (PyInt thread) (parent_arg parent)
                (sm_writer_name msg) (sm_content msg) (clock tick) s Hs) as Hs1.
  rewrite (create_message_Returned nt s thread parent _ _ wv cv w c (clock tick)
             Ht Hparent Hwv Hwt Hcv Hct) in *.
  cbn [snd] in Hs1. cbn [Py.getitem Py.lookup_key String.eqb Ascii.eqb Bool.eqb].
  rewrite <- fmap_insert.
  match goal with |- context [load_messages _ _ _ _ _ _ ?s1] =>
    destruct (IH (<[sm_id msg := seq_messages s + 1]> seen) (S tick) s1)
      as (s' & Hload & Hs' & Hthreads & Hmessages)
  end.
  - exact Hs1.
  - exact Ht.
  - intros p q Hq. unfold message_ids. cbn [messages]. rewrite fmap_app.
    apply elem_of_app.
    destruct (decide (p = sm_id msg)) as [->|Hne].
    + rewrite lookup_insert_eq in Hq. injection Hq as <-. right. by left.
    + rewrite lookup_insert_ne in Hq by done. left. by eapply Hseen.
  - exists s'. split; [exact Hload|]. split; [exact Hs'|].
    split; [exact Hthreads|]. rewrite Hmessages. cbn [messages seq_messages].
    rewrite Hw, Hc. cbn [default]. by rewrite <- app_assoc.
Qed.

Lemma loaded_rows_length thread seen msgs clock tick next :
  length (loaded_rows thread seen msgs clock tick next) = length msgs.
Proof.
  revert seen tick next. induction msgs as [|msg rest IH]; intros; simpl; [done|].
  by rewrite IH.
Qed.

Lemma loaded_rows_thread thread seen msgs clock tick next :
  Forall (λ r, m_thread_id r = thread ∧ m_layout_data r = None)
    (loaded_rows thread seen msgs clock tick next).
Proof.
  revert seen tick next. induction msgs as [|msg rest IH]; intros; simpl.
  - constructor.
  - constructor; [done|]. apply IH.
Qed.

(** X20. The loader loads every sample whose texts can be stored,
    whatever its ids and parents are: in a database that satisfies its
    schema it returns normally, and it has then added one thread, with
    the title of the sample, and one message of that thread for every
    message of the sample; the database satisfies its schema again. *)
Theorem load_sample_data_loads nt data clock s text :
  consistent s →
  stored_text (sample_title data) = Some text →
  Forall storable (sample_messages data) →
  ∃ s' rows,
    load_sample_data nt data clock s = (Returned tt, s') ∧
    consistent s' ∧
    threads s' =
      (threads s ++ [ThreadRow (seq_threads s + 1) text (clock O)])%list ∧
    messages s' = (messages s ++ rows)%list ∧
    length rows = length (sample_messages data) ∧
    Forall (λ r, m_thread_id r = seq_threads s + 1 ∧ m_layout_data r = None) rows.
Proof.
  intros Hs Htitle Hmsgs.
  apply stored_text_Some in Htitle as (v & Hv & Ht).
  unfold load_sample_data, init_db.
  pose proof (consistent_create_thread (sample_title data) (clock O) s Hs) as Hs1.
  rewrite (create_thread_Returned s _ v text (clock O) Hv Ht) in *.
  cbn [snd] in Hs1. cbn [Py.getitem Py.lookup_key String.eqb Ascii.eqb Bool.eqb].
  assert (Hsorted : Forall storable (sorted_by_id (sample_messages data))).
  { by rewrite sorted_by_id_perm. }
  match goal with |- context [load_messages _ _ _ _ _ _ ?s1] =>
    destruct (load_messages_loads nt (seq_threads s + 1) clock _ Hsorted
                ∅ 1%nat s1 Hs1)
      as (s' & Hload & Hs' & Hthreads & Hmessages)
  end.
  - unfold thread_ids. cbn [threads]. rewrite fmap_app.
    apply elem_of_app. right. by left.
  - intros p q Hq. by rewrite lookup_empty in Hq.
  - rewrite fmap_empty in Hload. exists s'. eexists.
    split; [exact Hload|]. split; [exact Hs'|]. split; [exact Hthreads|].
    split; [exact Hmessages|]. split.
    + by rewrite loaded_rows_length, sorted_by_id_perm.
    + apply loaded_rows_thread.
Qed.

Lemma demo_sample_storable : Forall storable (sample_messages demo_sample).
Proof. repeat constructor; by eexists. Qed.

Lemma load_sample_data_loads_witness :
  consistent demo_db ∧
  stored_text (sample_title demo_sample) = Some "Sample" ∧
  Forall storable (sample_messages demo_sample) ∧
  ∃ s' rows,
    load_sample_data no_numeric_text demo_sample demo_clock demo_db
      = (Returned tt, s') ∧
    consistent s' ∧
    threads s' =
      (threads demo_db ++
       [ThreadRow (seq_threads demo_db + 1) "Sample" (demo_clock O)])%list ∧
    messages s' = (messages demo_db ++ rows)%list ∧
    length rows = length (sample_messages demo_sample) ∧
    Forall (λ r, m_thread_id r = seq_threads demo_db + 1 ∧ m_layout_data r = None)
      rows.
Proof.
  exact (conj demo_consistent (conj eq_refl (conj demo_sample_storable
           (load_sample_data_loads no_numeric_text demo_sample demo_clock demo_db
              "Sample" demo_consistent eq_refl demo_sample_storable)))).
Defined.

(** ** The ids the loader gives *)

Lemma seen_after_old (seen : gmap Z Z) pre next p :
  p ∉ sm_id <$> pre → seen_after seen pre next !! p = seen !! p.
Proof.
  revert seen next. induction pre as [|m pre IH]; intros seen next Hp; [done|].
  rewrite fmap_cons in Hp. apply not_elem_of_cons in Hp as [Hne Hp].
  simpl. rewrite IH by done. by rewrite lookup_insert_ne.
Qed.

Lemma seen_after_new (seen : gmap Z Z) pre next (j : nat) m :
  NoDup (sm_id <$> pre) → pre !! j = Some m →
  seen_after seen pre next !! sm_id m = Some (next + Z.of_nat j).
Proof.
  revert seen next j. induction pre as [|m0 pre IH]; intros seen next j Hnd Hj;
    [done|].
  rewrite fmap_cons in Hnd. apply NoDup_cons in Hnd as [Hfresh Hnd].
  destruct j as [|j]; simpl in *.
  - injection Hj as ->. rewrite seen_after_old by done.
    rewrite lookup_insert_eq. f_equal. lia.
  - rewrite (IH _ _ j Hnd Hj). f_equal. lia.
Qed.

Lemma loaded_rows_app thread seen pre post clock tick next :
  loaded_rows thread seen (pre ++ post) clock tick next =
  (loaded_rows thread seen pre clock tick next ++
   loaded_rows thread (seen_after seen pre next) post clock
     (tick + length pre) (next + Z.of_nat (length pre)))%list.
Proof.
  revert seen tick next. induction pre as [|m pre IH]; intros seen tick next.
  - simpl. by rewrite Nat.add_0_r, Z.add_0_r.
  - cbn [app loaded_rows seen_after length]. rewrite IH. cbn [app].
    do 3 f_equal; lia.
Qed.

(** In the sorted sample without double ids, the messages before a
    message are the messages with a smaller id. *)
Lemma sorted_before (pre : list sample_message) msg post p :
  StronglySorted by_id (pre ++ msg :: post)%list →
  NoDup (sm_id <$> (pre ++ msg :: post)%list) →
  p ∈ sm_id <$> pre ↔
  p ∈ sm_id <$> (pre ++ msg :: post)%list ∧ p < sm_id msg.
Proof.
  intros Hsorted Hnd. rewrite fmap_app, fmap_cons in *.
  apply NoDup_app in Hnd as (_ & Hapart & Hnd').
  apply NoDup_cons in Hnd' as [Hmsg _]. split.
  - intros Hp. split; [apply elem_of_app; by left|].
    pose proof Hp as Hp'. apply list_elem_of_fmap in Hp' as (a & -> & Ha).
    assert (by_id a msg) as Hle.
    { eapply (StronglySorted_app_1_elem_of by_id); [exact Hsorted|exact Ha|left]. }
    unfold by_id in Hle.
    assert (sm_id a ≠ sm_id msg); [|lia].
    intros Heq. apply (Hapart _ Hp). rewrite Heq. left.
  - intros [Hin Hlt]. apply elem_of_app in Hin as [Hin|Hin]; [done|].
    exfalso. apply elem_of_cons in Hin as [->|Hin]; [lia|].
    apply list_elem_of_fmap in Hin as (b & -> & Hb).
    apply StronglySorted_app_1_r, StronglySorted_cons in Hsorted as [Hafter _].
    eapply Forall_forall in Hafter; [|exact Hb]. unfold by_id in Hafter. lia.
Qed.

Lemma loaded_rows_tree thread (L : list sample_message) clock tick next msg :
  StronglySorted by_id L →
  NoDup (sm_id <$> L) →
  msg ∈ L →
  ∃ (i : nat) row,
    L !! i = Some msg ∧
    seen_after ∅ L next !! sm_id msg = Some (next + Z.of_nat i) ∧
    row ∈ loaded_rows thread ∅ L clock tick next ∧
    m_id row = next + Z.of_nat i ∧
    m_thread_id row = thread ∧
    m_writer_name row = default "" (stored_text (sm_writer_name msg)) ∧
    m_content row = default "" (stored_text (sm_content msg)) ∧
    m_parent_id row =
      loaded_parent (sm_id <$> L)
        (λ p, default 0 (seen_after ∅ L next !! p)) msg.
Proof.
  intros Hsorted Hnd Hmsg.
  apply list_elem_of_split in Hmsg as (pre & post & ->).
  exists (length pre). eexists.
  split; [apply list_lookup_middle; done|].
  split; [apply seen_after_new; [done|by apply list_lookup_middle]|].
  split.
  { rewrite loaded_rows_app. apply elem_of_app. right.
    cbn [loaded_rows]. left. }
  cbn [m_id m_thread_id m_writer_name m_content m_parent_id].
  do 4 (split; [done|]).
  unfold loaded_parent. destruct (sm_parent_id msg) as [p|]; [|done].
  cbn [mbind option_bind].
  pose proof (sorted_before pre msg post p Hsorted Hnd) as Hbefore.
  destruct (decide (p ∈ sm_id <$> (pre ++ msg :: post)%list ∧ p < sm_id msg))
    as [Hyes|Hno].
  - apply Hbefore in Hyes.
    apply list_elem_of_fmap in Hyes as (a & -> & Ha).
    apply list_elem_of_lookup in Ha as [j Hj].
    assert (Hnd_pre : NoDup (sm_id <$> pre)).
    { rewrite fmap_app in Hnd. by apply NoDup_app in Hnd as (? & _ & _). }
    rewrite (seen_after_new ∅ pre next j a Hnd_pre Hj).
    rewrite (seen_after_new ∅ (pre ++ msg :: post) next j a Hnd); [done|].
    by apply lookup_app_l_Some.
  - rewrite seen_after_old; [by rewrite lookup_empty|]. tauto.
Qed.

(** X21. When no two messages of the sample have the same id, the
    loader keeps the tree. Every message of the sample gets a row of its
    own in the new thread, under a new id, with its two texts; and the
    parent of that row is the row of the message that [parent_id] names,
    provided that message is in the sample with a smaller id. A message
    whose [parent_id] is null, or is not in the sample, or is not
    smaller than its own id, is loaded without a parent. *)
Theorem load_sample_data_keeps_tree nt data clock s text :
  consistent s →
  stored_text (sample_title data) = Some text →
  Forall storable (sample_messages data) →
  NoDup (sm_id <$> sample_messages data) →
  ∃ s' (image : Z → Z),
    load_sample_data nt data clock s = (Returned tt, s') ∧
    (∀ a b, a ∈ sample_messages data → b ∈ sample_messages data →
            image (sm_id a) = image (sm_id b) → a = b) ∧
    ∀ msg, msg ∈ sample_messages data →
      ∃ row, row ∈ messages s' ∧
             m_id row = image (sm_id msg) ∧
             (m_id row ∉ message_ids s) ∧
             m_thread_id row = seq_threads s + 1 ∧
             stored_text (sm_writer_name msg) = Some (m_writer_name row) ∧
             stored_text (sm_content msg) = Some (m_content row) ∧
             m_parent_id row =
               loaded_parent (sm_id <$> sample_messages data) image msg.
Proof.
  intros Hs Htitle Hmsgs Hnd.
  apply stored_text_Some in Htitle as (v & Hv & Ht).
  unfold load_sample_data, init_db.
  pose proof (consistent_create_thread (sample_title data) (clock O) s Hs) as Hs1.
  rewrite (create_thread_Returned s _ v text (clock O) Hv Ht) in *.
  cbn [snd] in Hs1. cbn [Py.getitem Py.lookup_key String.eqb Ascii.eqb Bool.eqb].
  set (L := sorted_by_id (sample_messages data)).
  assert (HL : L ≡ₚ sample_messages data) by apply sorted_by_id_perm.
  assert (Hstorable : Forall storable L) by (by rewrite HL).
  assert (HndL : NoDup (sm_id <$> L)) by (by rewrite HL).
  assert (HsortedL : StronglySorted by_id L) by apply sorted_by_id_sorted.
  match goal with |- context [load_messages _ _ _ _ _ _ ?s1] =>
    destruct (load_messages_loads nt (seq_threads s + 1) clock L Hstorable
                ∅ 1%nat s1 Hs1)
      as (s' & Hload & _ & _ & Hmessages)
  end.
  { unfold thread_ids. cbn [threads]. rewrite fmap_app.
    apply elem_of_app. right. by left. }
  { intros p q Hq. by rewrite lookup_empty in Hq. }
  rewrite fmap_empty in Hload. cbn [messages seq_messages] in Hmessages.
  exists s', (λ p, default 0 (seen_after ∅ L (seq_messages s + 1) !! p)).
  split; [exact Hload|]. split.
  - intros a b Ha Hb Himage. rewrite <- HL in Ha, Hb.
    destruct (loaded_rows_tree (seq_threads s + 1) L clock 1%nat
                (seq_messages s + 1) a HsortedL HndL Ha)
      as (i & _ & Hi & Hia & _).
    destruct (loaded_rows_tree (seq_threads s + 1) L clock 1%nat
                (seq_messages s + 1) b HsortedL HndL Hb)
      as (j & _ & Hj & Hjb & _).
    cbv beta in Himage. rewrite Hia, Hjb in Himage. simpl in Himage.
    assert (i = j) as -> by lia. congruence.
  - intros msg Hmsg. pose proof Hmsg as HmsgL. rewrite <- HL in HmsgL.
    destruct (loaded_rows_tree (seq_threads s + 1) L clock 1%nat
                (seq_messages s + 1) msg HsortedL HndL HmsgL)
      as (i & row & _ & Himage & Hrow & Hid & Hthr & Hw & Hc & Hp).
    exists row. rewrite Hmessages.
    split; [apply elem_of_app; by right|].
    split; [by rewrite Himage|].
    split.
    { intros Hin. pose proof (messages_seq s Hs _ Hin). lia. }
    split; [done|].
    eapply Forall_forall in Hmsgs as [[w Hw'] [c Hc']]; [|exact Hmsg].
    rewrite Hw' in Hw. rewrite Hc' in Hc. simpl in Hw, Hc.
    split; [by rewrite Hw', Hw|]. split; [by rewrite Hc', Hc|].
    rewrite Hp. unfold loaded_parent.
    destruct (sm_parent_id msg) as [p|]; [|done].
    destruct (decide (p ∈ sm_id <$> L ∧ p < sm_id msg)) as [Hyes|Hno];
      destruct (decide (p ∈ sm_id <$> sample_messages data ∧ p < sm_id msg))
        as [Hyes'|Hno']; try done.
    + destruct Hno'. by rewrite <- HL.
    + destruct Hno. by rewrite HL.
Qed.

Lemma demo_sample_ids : NoDup (sm_id <$> sample_messages demo_sample).
Proof. compute_done. Qed.

Lemma load_sample_data_keeps_tree_witness :
  (consistent demo_db ∧
   stored_text (sample_title demo_sample) = Some "Sample" ∧
   Forall storable (sample_messages demo_sample) ∧
   NoDup (sm_id <$> sample_messages demo_sample)) ∧
  ∃ s' (image : Z → Z),
    load_sample_data no_numeric_text demo_sample demo_clock demo_db
      = (Returned tt, s') ∧
    (∀ a b, a ∈ sample_messages demo_sample → b ∈ sample_messages demo_sample →
            image (sm_id a) = image (sm_id b) → a = b) ∧
    ∀ msg, msg ∈ sample_messages demo_sample →
      ∃ row, row ∈ messages s' ∧
             m_id row = image (sm_id msg) ∧
             (m_id row ∉ message_ids demo_db) ∧
             m_thread_id row = seq_threads demo_db + 1 ∧
             stored_text (sm_writer_name msg) = Some (m_writer_name row) ∧
             stored_text (sm_content msg) = Some (m_content row) ∧
             m_parent_id row =
               loaded_parent (sm_id <$> sample_messages demo_sample) image msg.
Proof.
  exact (conj
    (conj demo_consistent (conj eq_refl (conj demo_sample_storable demo_sample_ids)))
    (load_sample_data_keeps_tree no_numeric_text demo_sample demo_clock demo_db
       "Sample" demo_consistent eq_refl demo_sample_storable demo_sample_ids)).
Defined.

(** ** A load that fails *)

Lemma create_message_unstorable nt thread_id parent_id writer_name content now s :
  ¬ (is_Some (stored_text writer_name) ∧ is_Some (stored_text content)) →
  is_raised (fst (create_message nt thread_id parent_id writer_name content now s))
    = true.
Proof.
  intros Hno.
  destruct (create_message_cases nt thread_id parent_id writer_name content now s)
    as [[Hr _]|(tv & pv & wv & cv & rowid & _ & _ & Hwv & Hcv & _ & H)]; [done|].
  destruct Hno.
  apply insert_message_Returned in H as (_ & _ & w & c & _ & _ & _ & Hw & Hc & _).
  unfold stored_text. rewrite Hwv, Hcv, Hw, Hc. by split.
Qed.

Lemma create_message_grows nt thread_id parent_id writer_name content now s :
  threads (snd (create_message nt thread_id parent_id writer_name content now s))
    = threads s ∧
  ∃ rows,
    messages (snd (create_message nt thread_id parent_id writer_name content now s))
      = (messages s ++ rows)%list.
Proof.
  destruct (create_message_cases nt thread_id parent_id writer_name content now s)
    as [[_ ->]|(tv & pv & wv & cv & rowid & _ & _ & _ & _ & _ & H)].
  - split; [done|]. exists []. by rewrite app_nil_r.
  - apply insert_message_Returned in H
      as (t & p & w & c & _ & _ & _ & _ & _ & _ & ->).
    split; [done|]. by eexists.
Qed.

Lemma load_messages_grows nt thread_id clock msgs :
  ∀ id_map tick s,
    threads (snd (load_messages nt thread_id id_map msgs clock tick s)) = threads s ∧
    ∃ rows,
      messages (snd (load_messages nt thread_id id_map msgs clock tick s))
        = (messages s ++ rows)%list.
Proof.
  induction msgs as [|msg rest IH]; intros id_map tick s.
  { split; [done|]. exists []. by rewrite app_nil_r. }
  cbn [load_messages].
  match goal with |- context [create_message nt thread_id ?p ?w ?c ?n s] =>
    destruct (create_message_grows nt thread_id p w c n s) as (Ht & rows & Hm);
    destruct (create_message nt thread_id p w c n s) as [[new_msg|e] s1]
  end; cbn [snd] in *.
  - destruct (Py.getitem new_msg "id") as [new_id|e]; cbn [snd].
    + destruct (IH (<[sm_id msg := new_id]> id_map) (S tick) s1)
        as (Ht' & rows' & Hm').
      split; [congruence|]. exists (rows ++ rows')%list.
      by rewrite Hm', Hm, app_assoc.
    + split; [done|]. by exists rows.
  - split; [done|]. by exists rows.
Qed.

Lemma load_messages_raises nt thread_id clock msgs :
  ¬ Forall storable msgs →
  ∀ id_map tick s,
    is_raised (fst (load_messages nt thread_id id_map msgs clock tick s)) = true.
Proof.
  induction msgs as [|msg rest IH]; intros Hno id_map tick s.
  { destruct Hno. constructor. }
  cbn [load_messages].
  match goal with |- context [create_message nt thread_id ?p ?w ?c ?n s] =>
    pose proof (create_message_unstorable nt thread_id p w c n s) as Hraise;
    destruct (create_message nt thread_id p w c n s) as [[new_msg|e] s1]
  end; [|done].
  destruct (Py.getitem new_msg "id") as [new_id|e]; [|done].
  apply IH. intros Hrest. apply Hno. constructor; [|done].
  destruct (decide (is_Some (stored_text (sm_writer_name msg)) ∧
                    is_Some (stored_text (sm_content msg)))) as [Hyes|Hnot];
    [done|]. by specialize (Hraise Hnot).
Qed.

(** X22. A load is not one transaction. When the title can be stored
    and a text of some message cannot (it is null, or no text at all),
    the loader raises, and what it wrote before stays: the new thread is
    in the database, and the rows that were there are all still there. *)
Theorem load_sample_data_is_not_atomic nt data clock s text :
  stored_text (sample_title data) = Some text →
  ¬ Forall storable (sample_messages data) →
  ∃ e s' rows,
    load_sample_data nt data clock s = (Raised e, s') ∧
    threads s' =
      (threads s ++ [ThreadRow (seq_threads s + 1) text (clock O)])%list ∧
    messages s' = (messages s ++ rows)%list.
Proof.
  intros Htitle Hno.
  apply stored_text_Some in Htitle as (v & Hv & Ht).
  unfold load_sample_data, init_db.
  rewrite (create_thread_Returned s _ v text (clock O) Hv Ht).
  cbn [Py.getitem Py.lookup_key String.eqb Ascii.eqb Bool.eqb].
  assert (HnoL : ¬ Forall storable (sorted_by_id (sample_messages data))).
  { by rewrite sorted_by_id_perm. }
  match goal with |- context [load_messages ?a ?b ?c ?d ?e ?f ?s1] =>
    pose proof (load_messages_raises a b e d HnoL c f s1) as Hraise;
    destruct (load_messages_grows a b e d c f s1) as (Hthreads & rows & Hmessages);
    destruct (load_messages a b c d e f s1) as [[u|e0] s']
  end; [done|].
  exists e0, s', rows. split; [done|]. split; [exact Hthreads|exact Hmessages].
Qed.

Lemma load_sample_data_is_not_atomic_witness :
  let data := Sample (PyStr "Sample")
                [SampleMessage 1 None (PyStr "A") (PyStr "hi");
                 SampleMessage 2 (Some 1) PyNone (PyStr "reply")] in
  stored_text (sample_title data) = Some "Sample" ∧
  ¬ Forall storable (sample_messages data) ∧
  ∃ e s' rows,
    load_sample_data no_numeric_text data demo_clock demo_db = (Raised e, s') ∧
    threads s' =
      (threads demo_db ++
       [ThreadRow (seq_threads demo_db + 1) "Sample" (demo_clock O)])%list ∧
    messages s' = (messages demo_db ++ rows)%list.
Proof.
  cbv zeta.
  assert (Hno : ¬ Forall storable
                  [SampleMessage 1 None (PyStr "A") (PyStr "hi");
                   SampleMessage 2 (Some 1) PyNone (PyStr "reply")]).
  { intros H. inversion H as [|? ? _ H']. inversion H' as [|? ? [[w Hw] _] _].
    discriminate Hw. }
  exact (conj eq_refl (conj Hno
           (load_sample_data_is_not_atomic no_numeric_text
              (Sample (PyStr "Sample")
                 [SampleMessage 1 None (PyStr "A") (PyStr "hi");
                  SampleMessage 2 (Some 1) PyNone (PyStr "reply")])
              demo_clock demo_db "Sample" eq_refl Hno))).
Defined.
